(** * QuadrupedServoControl: index transform, staging buffer and the
      cooperative motion loop of the mePed quadruped example.

    A shallow embedding of [examples/QuadrupedControl/QuadrupedServoControl.cpp].
    Machine integers are values of [Z] with the conversions of the target
    (AVR: [uint8_t] 8 bit, [int] 16 bit, [long] 32 bit) written out; the
    global arrays are lists updated by index; every function that touches
    the globals threads a [World] through; the blocking loops take fuel
    and report how they were left. *)

From Stdlib Require Import ZArith List Lia Bool String.
From stdpp Require Import base list.
Import ListNotations.

Local Open Scope Z_scope.

(** ** Machine integers *)

Definition wrap_unsigned (bits : Z) (z : Z) : Z := z mod 2 ^ bits.

Definition wrap_signed (bits : Z) (z : Z) : Z :=
  (z + 2 ^ (bits - 1)) mod 2 ^ bits - 2 ^ (bits - 1).

Definition to_uint8 (z : Z) : Z := wrap_unsigned 8 z.
Definition to_int (z : Z) : Z := wrap_signed 16 z.
Definition to_long (z : Z) : Z := wrap_signed 32 z.

Definition INT_MIN : Z := -32768.
Definition INT_MAX : Z := 32767.

Definition is_uint8 (z : Z) : Prop := 0 <= z <= 255.
Definition is_int (z : Z) : Prop := INT_MIN <= z <= INT_MAX.

(** [a - b] on [int] operands. *)
Definition int_sub (a b : Z) : Z := to_int (a - b).

(** The angles for which [180 - a] is representable in an [int]. *)
Definition invertible_angle (a : Z) : Prop := INT_MIN + 180 < a <= INT_MAX.

(** ** Constants of QuadrupedServoConfiguration.h and QuadrupedControl.h *)

(** Modelled from the spec: the configuration header is not part of the
    sources at hand.  Eight actuators, two per leg, the lift channel one
    past the pivot channel, pivots at 0, 2, 4, 6 in the order of the servo
    definitions at the top of the source file. *)
Definition NUMBER_OF_SERVOS : Z := 8.
Definition SERVOS_PER_LEG : Z := 2.
Definition LIFT_SERVO_OFFSET : Z := 1.

Definition FRONT_LEFT_PIVOT : Z := 0.
Definition FRONT_LEFT_LIFT : Z := 1.
Definition BACK_LEFT_PIVOT : Z := 2.
Definition BACK_LEFT_LIFT : Z := 3.
Definition BACK_RIGHT_PIVOT : Z := 4.
Definition BACK_RIGHT_LIFT : Z := 5.
Definition FRONT_RIGHT_PIVOT : Z := 6.
Definition FRONT_RIGHT_LIFT : Z := 7.

(** Modelled from the spec: the four travel directions and the bit that
    tells the side directions (Left = 1, Right = 3) from Forward = 0 and
    Backward = 2. *)
Definition MOVE_DIRECTION_FORWARD : Z := 0.
Definition MOVE_DIRECTION_LEFT : Z := 1.
Definition MOVE_DIRECTION_BACKWARD : Z := 2.
Definition MOVE_DIRECTION_RIGHT : Z := 3.
Definition MOVE_DIRECTION_SIDE_MASK : Z := 1.

(** Modelled from the spec: the refresh interval of the easing library in
    microseconds; the source comments its thousandth as 20 ms. *)
Definition REFRESH_INTERVAL : Z := 20000.

Inductive Direction : Type := Forward | Left | Backward | Right.

Definition direction_value (d : Direction) : Z :=
  match d with
  | Forward => MOVE_DIRECTION_FORWARD
  | Left => MOVE_DIRECTION_LEFT
  | Backward => MOVE_DIRECTION_BACKWARD
  | Right => MOVE_DIRECTION_RIGHT
  end.

Definition is_side (d : Direction) : bool :=
  match d with
  | Left | Right => true
  | Forward | Backward => false
  end.

Inductive Leg : Type := FrontLeft | BackLeft | BackRight | FrontRight.

Definition pivot_index (l : Leg) : Z :=
  match l with
  | FrontLeft => FRONT_LEFT_PIVOT
  | BackLeft => BACK_LEFT_PIVOT
  | BackRight => BACK_RIGHT_PIVOT
  | FrontRight => FRONT_RIGHT_PIVOT
  end.

(** ** The actuator and the globals *)

Inductive EasingType : Type := EASE_LINEAR | EASE_QUADRATIC_BOUNCING.

(** Modelled from the spec: one actuator channel of the easing library,
    with the attributes the spec lists for it. *)
Record ServoEasing : Type := mkServo {
  mPin : Z;
  mOperateServoReverse : bool;
  mTrim : Z;
  mCurrentAngle : Z;
  mTargetAngle : Z;
  mEasingType : EasingType
}.

(** Calls into the collaborators, in the order the program makes them. *)
Inductive Event : Type :=
| EvCheckIRInput
| EvStopCheck (stop : bool)
| EvDelay (ms : Z)
| EvStartEaseTo (idx deg speed : Z)
| EvUpdate (idx : Z) (done : bool)
| EvUpdateAllServos (done : bool)
| EvSetEaseToForAllServos (targets : list Z)
| EvSynchronizeAllServos.

(** What [Serial] has been asked to print. *)
Inductive SerialItem : Type :=
| SText (s : string)
| SNum (n : Z)
| STextLn (s : string)
| SNumLn (n : Z).

Record World : Type := mkWorld {
  sServoArray : list ServoEasing;
  sServoNextPositionArray : list Z;
  sServoTrimAngles : list Z;
  sServoSpeed : Z;
  sRequestToStopReceived : bool;
  irPending : list bool;
  trace : list Event;
  serialOut : list SerialItem
}.

Definition setServos (v : list ServoEasing) (w : World) : World :=
  mkWorld v (sServoNextPositionArray w) (sServoTrimAngles w) (sServoSpeed w)
          (sRequestToStopReceived w) (irPending w) (trace w) (serialOut w).

Definition setNextPositions (v : list Z) (w : World) : World :=
  mkWorld (sServoArray w) v (sServoTrimAngles w) (sServoSpeed w)
          (sRequestToStopReceived w) (irPending w) (trace w) (serialOut w).

Definition setStopAndPending (stop : bool) (p : list bool) (w : World) : World :=
  mkWorld (sServoArray w) (sServoNextPositionArray w) (sServoTrimAngles w)
          (sServoSpeed w) stop p (trace w) (serialOut w).

Definition logEvent (e : Event) (w : World) : World :=
  mkWorld (sServoArray w) (sServoNextPositionArray w) (sServoTrimAngles w)
          (sServoSpeed w) (sRequestToStopReceived w) (irPending w)
          (trace w ++ [e]) (serialOut w).

Definition serialPrint (i : SerialItem) (w : World) : World :=
  mkWorld (sServoArray w) (sServoNextPositionArray w) (sServoTrimAngles w)
          (sServoSpeed w) (sRequestToStopReceived w) (irPending w)
          (trace w) (serialOut w ++ [i]).

(** [sServoNextPositionArray[idx] = v].  An index past the end of the
    array is undefined behaviour in the source; the list is then left as
    it is, and every statement below is about indices inside the array. *)
Definition stage (idx v : Z) (w : World) : World :=
  setNextPositions (<[Z.to_nat idx := v]> (sServoNextPositionArray w)) w.

(** How a function of the program was left. *)
Inductive Outcome : Type :=
| Completed
| Canceled
| OutOfFuel
| Fault.

(** ** The collaborators *)

(** The motion primitives of the easing library, whose bodies are not in
    this file: the program only relies on their signatures. *)
Class ServoEasingLib : Type := {
  lib_startEaseTo : Z -> Z -> ServoEasing -> ServoEasing;
  lib_update : ServoEasing -> ServoEasing * bool;
  lib_easeTo : Z -> ServoEasing -> ServoEasing;
  lib_synchronize : list ServoEasing -> list ServoEasing
}.

(** Modelled from the spec: set-trim(offset) of the easing library stores
    the signed trim offset of the actuator. *)
Definition setTrim (aTrim : Z) (s : ServoEasing) : ServoEasing :=
  mkServo (mPin s) (mOperateServoReverse s) aTrim (mCurrentAngle s)
          (mTargetAngle s) (mEasingType s).

(** Modelled from the spec: poll-for-input() of the remote collaborator
    consumes what the remote has pending and may set the process-wide
    stop-requested condition; it never clears it. *)
Definition checkIRInput (w : World) : World :=
  let stop :=
    match irPending w with
    | [] => false
    | b :: _ => b
    end in
  logEvent EvCheckIRInput
    (setStopAndPending (sRequestToStopReceived w || stop) (tail (irPending w)) w).

(** [delay(ms)] of the Arduino core. *)
Definition delay (ms : Z) (w : World) : World := logEvent (EvDelay ms) w.

(** Modelled from the spec: advance every actuator by one tick and report
    whether all of them have arrived. *)
Definition updateAllServos `{ServoEasingLib} (w : World) : World * bool :=
  let r := map lib_update (sServoArray w) in
  let tAllServosStopped := forallb snd r in
  (logEvent (EvUpdateAllServos tAllServosStopped) (setServos (map fst r) w),
   tAllServosStopped).

(** Modelled from the spec: the commit step starts, for every actuator,
    an interpolation towards the staged angle of its slot. *)
Definition setEaseToForAllServos `{ServoEasingLib} (w : World) : World :=
  logEvent (EvSetEaseToForAllServos (sServoNextPositionArray w))
    (setServos
       (zip_with (fun s t => lib_startEaseTo t (sServoSpeed w) s)
                 (sServoArray w) (sServoNextPositionArray w))
       w).

(** Modelled from the spec: all staged actuators start in one step. *)
Definition synchronizeAllServosAndStartInterrupt `{ServoEasingLib}
    (aStartUpdateByInterrupt : bool) (w : World) : World :=
  logEvent EvSynchronizeAllServos (setServos (lib_synchronize (sServoArray w)) w).

(** [sServoArray[idx]->startEaseTo(deg, speed, false)]; [None] when there
    is no such servo. *)
Definition servoStartEaseTo `{ServoEasingLib} (idx deg speed : Z) (w : World)
    : option World :=
  match sServoArray w !! Z.to_nat idx with
  | Some s =>
      Some (logEvent (EvStartEaseTo idx deg speed)
              (setServos (<[Z.to_nat idx := lib_startEaseTo deg speed s]> (sServoArray w)) w))
  | None => None
  end.

(** [sServoArray[idx]->update()]. *)
Definition servoUpdate `{ServoEasingLib} (idx : Z) (w : World)
    : option (World * bool) :=
  match sServoArray w !! Z.to_nat idx with
  | Some s =>
      let r := lib_update s in
      Some (logEvent (EvUpdate idx (snd r))
              (setServos (<[Z.to_nat idx := fst r]> (sServoArray w)) w),
            snd r)
  | None => None
  end.

(** [map] of the Arduino core, computed on [long]. *)
Definition map_long (x in_min in_max out_min out_max : Z) : Z :=
  to_long (to_long (Z.quot (to_long (to_long (x - in_min) * to_long (out_max - out_min)))
                           (to_long (in_max - in_min)))
           + out_min).

(** Modelled from the spec: the early-return macro of the command
    dispatcher reads the stop-requested condition; the caller returns
    when it holds. *)
Definition RETURN_IF_STOP (w : World) : World * bool :=
  (logEvent (EvStopCheck (sRequestToStopReceived w)) w, sRequestToStopReceived w).

(** ** The program *)


(** The body of the loop of [printTrimAngles] for one [i]. *)
Definition printTrimAngles_body (w : World) (i : Z) : World :=
  let tTrim := default 0 (sServoTrimAngles w !! Z.to_nat i) in
  let w := serialPrint (SText "ServoTrimAngle[") w in
  let w := serialPrint (SNum i) w in
  let w := serialPrint (SText "]=") w in
  let w := serialPrint (SNumLn tTrim) w in
  setServos (alter (setTrim tTrim) (Z.to_nat i) (sServoArray w)) w.

Definition printTrimAngles (w : World) : World :=
  foldl printTrimAngles_body w (seqZ 0 NUMBER_OF_SERVOS).

Definition getMirrorXorMask (aDirection : Z) : Z :=
  if negb (Z.eqb (Z.land aDirection MOVE_DIRECTION_SIDE_MASK) 0) then 2 else 6.

Fixpoint updateAndCheckInputAndWaitForAllServosToStop `{ServoEasingLib}
    (fuel : nat) (w : World) : Outcome * World :=
  match fuel with
  | O => (OutOfFuel, w)
  | S fuel' =>
      let w := checkIRInput w in
      let '(w, stop) := RETURN_IF_STOP w in
      if stop then (Canceled, w)
      else
        let w := delay (Z.quot REFRESH_INTERVAL 1000) w in
        let '(w, done) := updateAllServos w in
        if done then (Completed, w)
        else updateAndCheckInputAndWaitForAllServosToStop fuel' w
  end.

(** The do-while loop of [moveOneServoAndCheckInputAndWait]. *)
Fixpoint moveOneServoAndCheckInputAndWait_loop `{ServoEasingLib}
    (fuel : nat) (aServoIndex : Z) (w : World) : Outcome * World :=
  match fuel with
  | O => (OutOfFuel, w)
  | S fuel' =>
      let w := checkIRInput w in
      let '(w, stop) := RETURN_IF_STOP w in
      if stop then (Canceled, w)
      else
        let w := delay (Z.quot REFRESH_INTERVAL 1000) w in
        match servoUpdate aServoIndex w with
        | None => (Fault, w)
        | Some (w, done) =>
            if done then (Completed, w)
            else moveOneServoAndCheckInputAndWait_loop fuel' aServoIndex w
        end
  end.

Definition moveOneServoAndCheckInputAndWait `{ServoEasingLib}
    (fuel : nat) (aServoIndex aDegree aDegreesPerSecond : Z) (w : World)
    : Outcome * World :=
  match servoStartEaseTo aServoIndex aDegree aDegreesPerSecond w with
  | None => (Fault, w)
  | Some w => moveOneServoAndCheckInputAndWait_loop fuel aServoIndex w
  end.

Definition synchronizeMoveAllServosAndCheckInputAndWait `{ServoEasingLib}
    (fuel : nat) (w : World) : Outcome * World :=
  let w := setEaseToForAllServos w in
  let w := synchronizeAllServosAndStartInterrupt false w in
  updateAndCheckInputAndWaitForAllServosToStop fuel w.

(** [if (doInvert) { a = 180 - a; }] *)
Definition invertIf (doInvert : bool) (a : Z) : Z :=
  if doInvert then int_sub 180 a else a.

Definition transformAndSetAllServos `{ServoEasingLib} (fuel : nat)
    (aFLP aBLP aBRP aFRP aFLL aBLL aBRL aFRL : Z) (aDirection : Z)
    (doMirror aDoMove : bool) (w : World) : Outcome * World :=
  let tIndexToAdd := to_uint8 (aDirection * SERVOS_PER_LEG) in
  let tXorToGetMirroredIndex := if doMirror then getMirrorXorMask aDirection else 0 in
  let doInvert := if doMirror then true else false in

  let tEffectivePivotServoIndex :=
    to_uint8 (Z.lxor (Z.rem (FRONT_LEFT_PIVOT + tIndexToAdd) NUMBER_OF_SERVOS)
                     tXorToGetMirroredIndex) in
  let aFLP := invertIf doInvert aFLP in
  let w := stage tEffectivePivotServoIndex aFLP w in
  let w := stage (tEffectivePivotServoIndex + LIFT_SERVO_OFFSET) aFLL w in

  let tEffectivePivotServoIndex :=
    to_uint8 (Z.lxor (Z.rem (BACK_LEFT_PIVOT + tIndexToAdd) NUMBER_OF_SERVOS)
                     tXorToGetMirroredIndex) in
  let aBLP := invertIf doInvert aBLP in
  let w := stage tEffectivePivotServoIndex aBLP w in
  let w := stage (tEffectivePivotServoIndex + LIFT_SERVO_OFFSET) aBLL w in

  let tEffectivePivotServoIndex :=
    to_uint8 (Z.lxor (Z.rem (BACK_RIGHT_PIVOT + tIndexToAdd) NUMBER_OF_SERVOS)
                     tXorToGetMirroredIndex) in
  let aBRP := invertIf doInvert aBRP in
  let w := stage tEffectivePivotServoIndex aBRP w in
  let w := stage (tEffectivePivotServoIndex + LIFT_SERVO_OFFSET) aBRL w in

  let tEffectivePivotServoIndex :=
    to_uint8 (Z.lxor (Z.rem (FRONT_RIGHT_PIVOT + tIndexToAdd) NUMBER_OF_SERVOS)
                     tXorToGetMirroredIndex) in
  let aFRP := invertIf doInvert aFRP in
  let w := stage tEffectivePivotServoIndex aFRP w in
  let w := stage (tEffectivePivotServoIndex + LIFT_SERVO_OFFSET) aFRL w in

  if aDoMove then synchronizeMoveAllServosAndCheckInputAndWait fuel w
  else (Completed, w).

Definition transformAndSetPivotServos `{ServoEasingLib} (fuel : nat)
    (aFLP aBLP aBRP aFRP : Z) (aDirection : Z)
    (doMirror aDoMove : bool) (w : World) : Outcome * World :=
  let tIndexToAdd := to_uint8 (aDirection * SERVOS_PER_LEG) in
  let tXorToGetMirroredIndex := if doMirror then getMirrorXorMask aDirection else 0 in
  let doInvert := if doMirror then true else false in

  let tEffectivePivotServoIndex :=
    to_uint8 (Z.lxor (Z.rem (FRONT_LEFT_PIVOT + tIndexToAdd) NUMBER_OF_SERVOS)
                     tXorToGetMirroredIndex) in
  let aFLP := invertIf doInvert aFLP in
  let w := stage tEffectivePivotServoIndex aFLP w in

  let tEffectivePivotServoIndex :=
    to_uint8 (Z.lxor (Z.rem (BACK_LEFT_PIVOT + tIndexToAdd) NUMBER_OF_SERVOS)
                     tXorToGetMirroredIndex) in
  let aBLP := invertIf doInvert aBLP in
  let w := stage tEffectivePivotServoIndex aBLP w in

  let tEffectivePivotServoIndex :=
    to_uint8 (Z.lxor (Z.rem (BACK_RIGHT_PIVOT + tIndexToAdd) NUMBER_OF_SERVOS)
                     tXorToGetMirroredIndex) in
  let aBRP := invertIf doInvert aBRP in
  let w := stage tEffectivePivotServoIndex aBRP w in

  let tEffectivePivotServoIndex :=
    to_uint8 (Z.lxor (Z.rem (FRONT_RIGHT_PIVOT + tIndexToAdd) NUMBER_OF_SERVOS)
                     tXorToGetMirroredIndex) in
  let aFRP := invertIf doInvert aFRP in
  let w := stage tEffectivePivotServoIndex aFRP w in

  if aDoMove then synchronizeMoveAllServosAndCheckInputAndWait fuel w
  else (Completed, w).

Definition transformOneServoIndex (aServoIndexToTransform aDirection : Z)
    (doMirror : bool) : Z :=
  let tXorToGetMirroredIndex := if doMirror then getMirrorXorMask aDirection else 0 in
  to_uint8 (Z.lxor (Z.rem (aServoIndexToTransform + aDirection * SERVOS_PER_LEG)
                          NUMBER_OF_SERVOS)
                   tXorToGetMirroredIndex).

(** The angle [setLiftServoHeight] computes for the lift servo;
    [LIFT_MIN_ANGLE] and [LIFT_MAX_ANGLE] come from the configuration
    header and are taken as parameters. *)
Definition liftDegreeForHeight (LIFT_MIN_ANGLE LIFT_MAX_ANGLE : Z)
    (aHeightPercent : Z) : Z :=
  let aHeightPercent := if Z.ltb 100 aHeightPercent then 100 else aHeightPercent in
  to_int (map_long aHeightPercent 0 100 LIFT_MAX_ANGLE LIFT_MIN_ANGLE).

Definition setLiftServoHeight `{ServoEasingLib} (LIFT_MIN_ANGLE LIFT_MAX_ANGLE : Z)
    (aLiftServo : ServoEasing) (aHeightPercent : Z) : ServoEasing :=
  let aHeightPercent := if Z.ltb 100 aHeightPercent then 100 else aHeightPercent in
  let tDegreeForLiftServo :=
    to_int (map_long aHeightPercent 0 100 LIFT_MAX_ANGLE LIFT_MIN_ANGLE) in
  lib_easeTo tDegreeForLiftServo aLiftServo.

Definition setAllServos `{ServoEasingLib} (fuel : nat)
    (aFLP aBLP aBRP aFRP aFLL aBLL aBRL aFRL : Z) (w : World) : Outcome * World :=
  let w := stage FRONT_LEFT_PIVOT aFLP w in
  let w := stage BACK_LEFT_PIVOT aBLP w in
  let w := stage BACK_RIGHT_PIVOT aBRP w in
  let w := stage FRONT_RIGHT_PIVOT aFRP w in

  let w := stage FRONT_LEFT_LIFT aFLL w in
  let w := stage BACK_LEFT_LIFT aBLL w in
  let w := stage BACK_RIGHT_LIFT aBRL w in
  let w := stage FRONT_RIGHT_LIFT aFRL w in
  synchronizeMoveAllServosAndCheckInputAndWait fuel w.

(** ** A library instance to run the program on *)

(** Modelled from the spec: a linear actuator that moves one degree per
    tick towards its commanded target and reports arrival once it is
    there. *)
Definition spec_startEaseTo (deg speed : Z) (s : ServoEasing) : ServoEasing :=
  mkServo (mPin s) (mOperateServoReverse s) (mTrim s) (mCurrentAngle s) deg
          (mEasingType s).

Definition spec_update (s : ServoEasing) : ServoEasing * bool :=
  let c := mCurrentAngle s in
  let t := mTargetAngle s in
  let c' := if Z.ltb c t then c + 1 else if Z.ltb t c then c - 1 else c in
  (mkServo (mPin s) (mOperateServoReverse s) (mTrim s) c' t (mEasingType s),
   Z.eqb c' t).

Definition spec_easeTo (deg : Z) (s : ServoEasing) : ServoEasing :=
  mkServo (mPin s) (mOperateServoReverse s) (mTrim s) deg deg (mEasingType s).

Definition specLib : ServoEasingLib :=
  {| lib_startEaseTo := spec_startEaseTo;
     lib_update := spec_update;
     lib_easeTo := spec_easeTo;
     lib_synchronize := fun l => l |}.

Definition servoAt (pin angle : Z) : ServoEasing :=
  mkServo pin false 0 angle angle EASE_LINEAR.

(** The eight servos on pins 5 to 12, all at 90 degrees, nothing staged,
    no trim, nothing pending on the remote. *)
Definition restWorld : World :=
  mkWorld (map (fun p => servoAt p 90) (seqZ 5 8))
          (replicate 8 90) (replicate 8 0) 90 false [] [] [].

(** ** The specification's words *)

(** The reflection mask as the spec words it: none without mirroring, 0x2
    for a side direction, 0x6 for Forward and Backward. *)
Definition spec_mask (d : Direction) (m : bool) : Z :=
  if m then (if is_side d then 2 else 6) else 0.

(** The physical index as the spec words it. *)
Definition spec_physical_index (c : Z) (d : Direction) (m : bool) : Z :=
  Z.lxor ((c + direction_value d * 2) mod 8) (spec_mask d m).

(** The pivot angle as the spec words it. *)
Definition spec_pivot_angle (m : bool) (a : Z) : Z :=
  if m then 180 - a else a.

(** The buffer after a sequence of writes [(index, value)], oldest first. *)
Definition stageAll (ws : list (Z * Z)) (w : World) : World :=
  foldl (fun w p => stage (fst p) (snd p) w) w ws.

(** The value of the most recent write to slot [i], if any. *)
Fixpoint lastWrite (i : Z) (ws : list (Z * Z)) : option Z :=
  match ws with
  | [] => None
  | (j, v) :: ws' =>
      match lastWrite i ws' with
      | Some v' => Some v'
      | None => if Z.eqb j i then Some v else None
      end
  end.

(** ** Models of the loops and worlds to run on *)

(** The advance step of the loop over all servos. *)
Definition advanceAll `{ServoEasingLib} (w : World) : option (World * bool) :=
  Some (updateAllServos w).

(** The posture of the test routine of the source: pivots 180, 1, 135, 30. *)
Definition testPivot (l : Leg) : Z :=
  match l with
  | FrontLeft => 180
  | BackLeft => 1
  | BackRight => 135
  | FrontRight => 30
  end.

Definition testLift (l : Leg) : Z :=
  match l with
  | FrontLeft => 111
  | _ => 0
  end.

(** Both do-while loops of the source, with the advance step as a
    parameter: poll, leave when a stop is requested, wait one tick,
    advance, repeat until the advance step reports arrival. *)
Fixpoint pollLoop (advance : World -> option (World * bool)) (fuel : nat)
    (w : World) : Outcome * World :=
  match fuel with
  | O => (OutOfFuel, w)
  | S fuel' =>
      let w := checkIRInput w in
      let '(w, stop) := RETURN_IF_STOP w in
      if stop then (Canceled, w)
      else
        let w := delay (Z.quot REFRESH_INTERVAL 1000) w in
        match advance w with
        | None => (Fault, w)
        | Some (w, done) =>
            if done then (Completed, w) else pollLoop advance fuel' w
        end
  end.

(** [loopHead advance w0 k w]: the loop started in [w0] is back at its
    head in world [w] after [k] passes that did not leave it. *)
Inductive loopHead (advance : World -> option (World * bool)) (w0 : World)
    : nat -> World -> Prop :=
| loopHead_start : loopHead advance w0 O w0
| loopHead_next (k : nat) (w w' : World) :
    loopHead advance w0 k w ->
    sRequestToStopReceived (checkIRInput w) = false ->
    advance (delay (Z.quot REFRESH_INTERVAL 1000)
               (fst (RETURN_IF_STOP (checkIRInput w)))) = Some (w', false) ->
    loopHead advance w0 (S k) w'.

(** What one pass through the loop body logs when the loop goes on. *)
Definition passEvents (upd : bool -> Event) : list Event :=
  [EvCheckIRInput; EvStopCheck false; EvDelay (Z.quot REFRESH_INTERVAL 1000); upd false].

(** What the last, partial or leaving, pass logs. *)
Definition exitEvents (upd : bool -> Event) (o : Outcome) : list Event :=
  match o with
  | Completed =>
      [EvCheckIRInput; EvStopCheck false; EvDelay (Z.quot REFRESH_INTERVAL 1000); upd true]
  | Canceled => [EvCheckIRInput; EvStopCheck true]
  | Fault => [EvCheckIRInput; EvStopCheck false; EvDelay (Z.quot REFRESH_INTERVAL 1000)]
  | OutOfFuel => []
  end.

Definition isAdvance (e : Event) : bool :=
  match e with
  | EvUpdate _ _ | EvUpdateAllServos _ => true
  | _ => false
  end.

Definition isStopCheck (e : Event) : bool :=
  match e with
  | EvStopCheck _ => true
  | _ => false
  end.

(** Whether a stop check is logged before the next advance step and
    before the end of the trace. *)
Fixpoint stopCheckFollows (t : list Event) : bool :=
  match t with
  | [] => false
  | e :: t' =>
      if isStopCheck e then true
      else if isAdvance e then false
      else stopCheckFollows t'
  end.

(** Whether every advance step of the trace is followed by a stop check
    before the next advance step or the end of the trace. *)
Fixpoint stopCheckedAfterEveryAdvance (t : list Event) : bool :=
  match t with
  | [] => true
  | e :: t' =>
      (if isAdvance e then stopCheckFollows t' else true)
      && stopCheckedAfterEveryAdvance t'
  end.

(** The rest world with servo 0 commanded to 95 degrees and a remote that
    stays silent at the first poll and asks to stop at the second. *)
Definition movingWorld : World :=
  mkWorld (mkServo 5 false 0 90 95 EASE_LINEAR :: map (fun p => servoAt p 90) (seqZ 6 7))
          (replicate 8 90) (replicate 8 0) 90 false [false; true] [] [].

(** [movingWorld] after one pass of the single-servo loop: servo 0 has
    reached 91 degrees. *)
Definition movingWorld1 : World :=
  mkWorld (mkServo 5 false 0 91 95 EASE_LINEAR :: map (fun p => servoAt p 90) (seqZ 6 7))
          (replicate 8 90) (replicate 8 0) 90 false [true]
          [EvCheckIRInput; EvStopCheck false; EvDelay 20; EvUpdate 0 false] [].

(** The linear map of a percentage onto [LIFT_MAX_ANGLE .. LIFT_MIN_ANGLE]
    as the spec words it, with the division of the source. *)
Definition spec_lift_angle (LIFT_MIN_ANGLE LIFT_MAX_ANGLE percent : Z) : Z :=
  LIFT_MAX_ANGLE + Z.quot (percent * (LIFT_MIN_ANGLE - LIFT_MAX_ANGLE)) 100.


(** The trim the working table holds for servo [i]. *)
Definition tableTrim (w : World) (i : nat) : Z :=
  default 0 (sServoTrimAngles w !! i).


(** The rest world with a stop request pending on the remote. *)
Definition stopPendingWorld : World :=
  setStopAndPending false [true] restWorld.

(** ** The rest of the program *)

(** [write(angle)] of the easing library moves a servo at once, without
    easing; the program only relies on its signature. *)
Class ServoWriteLib : Type := {
  lib_write : Z -> ServoEasing -> ServoEasing
}.

(** Modelled from the spec: the interpolation-mode selector of an
    actuator is set by [setEasingType]. *)
Definition setEasingType (aEasingType : EasingType) (s : ServoEasing) : ServoEasing :=
  mkServo (mPin s) (mOperateServoReverse s) (mTrim s) (mCurrentAngle s)
          (mTargetAngle s) aEasingType.

Definition setTrimAngles (v : list Z) (w : World) : World :=
  mkWorld (sServoArray w) (sServoNextPositionArray w) v (sServoSpeed w)
          (sRequestToStopReceived w) (irPending w) (trace w) (serialOut w).

(** The globals the driver functions above do not touch: the body height
    and the copy of the trim table in EEPROM. *)
Record Robot : Type := mkRobot {
  world : World;
  sBodyHeightAngle : Z;
  sServoTrimAnglesEEPROM : list Z
}.

(** [eeprom_read_block] and [eeprom_write_block] of avr-libc copy [n]
    bytes from [src] over the start of [dst].  Both arrays of the source
    have exactly [n] entries; a shorter [src] is outside the statements
    below. *)
Definition block_copy (n : Z) (src dst : list Z) : list Z :=
  take (Z.to_nat n) src ++ drop (Z.to_nat n) dst.

Definition centerServos `{ServoEasingLib} (fuel : nat) (r : Robot) : Outcome * Robot :=
  let res := setAllServos fuel 90 90 90 90 (sBodyHeightAngle r) (sBodyHeightAngle r)
               (sBodyHeightAngle r) (sBodyHeightAngle r) (world r) in
  (fst res, mkRobot (snd res) (sBodyHeightAngle r) (sServoTrimAnglesEEPROM r)).

Definition shutdownServos `{ServoEasingLib} (LIFT_MAX_ANGLE : Z) (fuel : nat)
    (r : Robot) : Outcome * Robot :=
  let w := serialPrint (STextLn "Shutdown servos") (world r) in
  let r := mkRobot w (to_uint8 LIFT_MAX_ANGLE) (sServoTrimAnglesEEPROM r) in
  centerServos fuel r.

Definition eepromReadAndSetServoTrim (r : Robot) : Robot :=
  let w := serialPrint (STextLn "eepromReadAndSetServoTrim()") (world r) in
  let w := setTrimAngles (block_copy NUMBER_OF_SERVOS (sServoTrimAnglesEEPROM r)
                            (sServoTrimAngles w)) w in
  let w := printTrimAngles w in
  mkRobot w (sBodyHeightAngle r) (sServoTrimAnglesEEPROM r).

Definition eepromWriteServoTrim (r : Robot) : Robot :=
  let tEEPROM := block_copy NUMBER_OF_SERVOS (sServoTrimAngles (world r))
                   (sServoTrimAnglesEEPROM r) in
  let w := printTrimAngles (world r) in
  mkRobot w (sBodyHeightAngle r) tEEPROM.

(** The body of the loop of [setEasingTypeToLinear] for one index. *)
Definition setEasingTypeToLinear_body (w : World) (tServoIndex : Z) : World :=
  setServos (alter (setEasingType EASE_LINEAR) (Z.to_nat tServoIndex) (sServoArray w)) w.

Definition setEasingTypeToLinear (w : World) : World :=
  foldl setEasingTypeToLinear_body w (seqZ 0 NUMBER_OF_SERVOS).

(** The for loop of [setEasingTypeForMoving], which steps its index once
    in the body and once in the loop header; [None] when the fuel runs
    out before the loop condition fails. *)
Fixpoint setEasingTypeForMoving_loop (fuel : nat) (tServoIndex : Z) (w : World)
    : option World :=
  match fuel with
  | O => None
  | S fuel' =>
      if Z.ltb tServoIndex NUMBER_OF_SERVOS then
        let w := setServos (alter (setEasingType EASE_LINEAR) (Z.to_nat tServoIndex)
                              (sServoArray w)) w in
        let tServoIndex := to_int (tServoIndex + 1) in
        let w := setServos (alter (setEasingType EASE_QUADRATIC_BOUNCING)
                              (Z.to_nat tServoIndex) (sServoArray w)) w in
        setEasingTypeForMoving_loop fuel' (to_int (tServoIndex + 1)) w
      else Some w
  end.

Definition setEasingTypeForMoving (fuel : nat) (w : World) : option World :=
  setEasingTypeForMoving_loop fuel 0 w.

(** The for loop of [setLiftServosToBodyHeight]. *)
Fixpoint setLiftServosToBodyHeight_loop `{ServoWriteLib} (fuel : nat) (i : Z)
    (aBodyHeightAngle : Z) (w : World) : option World :=
  match fuel with
  | O => None
  | S fuel' =>
      if Z.ltb i NUMBER_OF_SERVOS then
        let w := setServos (alter (lib_write aBodyHeightAngle) (Z.to_nat i)
                              (sServoArray w)) w in
        setLiftServosToBodyHeight_loop fuel' (to_uint8 (i + SERVOS_PER_LEG))
          aBodyHeightAngle w
      else Some w
  end.

Definition setLiftServosToBodyHeight `{ServoWriteLib} (fuel : nat) (r : Robot)
    : option Robot :=
  match setLiftServosToBodyHeight_loop fuel LIFT_SERVO_OFFSET (sBodyHeightAngle r)
          (world r) with
  | Some w => Some (mkRobot w (sBodyHeightAngle r) (sServoTrimAnglesEEPROM r))
  | None => None
  end.

Definition setPivotServos `{ServoEasingLib} (fuel : nat) (aFLP aBLP aBRP aFRP : Z)
    (w : World) : Outcome * World :=
  let w := stage FRONT_LEFT_PIVOT aFLP w in
  let w := stage BACK_LEFT_PIVOT aBLP w in
  let w := stage BACK_RIGHT_PIVOT aBRP w in
  let w := stage FRONT_RIGHT_PIVOT aFRP w in
  synchronizeMoveAllServosAndCheckInputAndWait fuel w.

(** [setLiftServos] with four lift angles. *)
Definition setLiftServos4 `{ServoEasingLib} (fuel : nat) (aFLL aBLL aBRL aFRL : Z)
    (w : World) : Outcome * World :=
  let w := stage FRONT_LEFT_LIFT aFLL w in
  let w := stage BACK_LEFT_LIFT aBLL w in
  let w := stage BACK_RIGHT_LIFT aBRL w in
  let w := stage FRONT_RIGHT_LIFT aFRL w in
  synchronizeMoveAllServosAndCheckInputAndWait fuel w.

(** [setLiftServos] with one angle for all four lift servos. *)
Definition setLiftServos `{ServoEasingLib} (fuel : nat) (aBodyHeightAngle : Z)
    (w : World) : Outcome * World :=
  let w := stage FRONT_LEFT_LIFT aBodyHeightAngle w in
  let w := stage BACK_LEFT_LIFT aBodyHeightAngle w in
  let w := stage BACK_RIGHT_LIFT aBodyHeightAngle w in
  let w := stage FRONT_RIGHT_LIFT aBodyHeightAngle w in
  synchronizeMoveAllServosAndCheckInputAndWait fuel w.

(** ** Notions for the further properties *)

Definition legs : list Leg := [FrontLeft; BackLeft; BackRight; FrontRight].

Definition Leg_eqb (a b : Leg) : bool :=
  match a, b with
  | FrontLeft, FrontLeft | BackLeft, BackLeft
  | BackRight, BackRight | FrontRight, FrontRight => true
  | _, _ => false
  end.

(** The canonical leg whose angles the transform puts on the physical
    leg [p]: the one whose pivot index is sent to the pivot index of [p]. *)
Definition sourceLeg (d : Direction) (m : bool) (p : Leg) : Leg :=
  default p
    (find (fun c => Z.eqb (transformOneServoIndex (pivot_index c) (direction_value d) m)
                          (pivot_index p))
          legs).

(** The milliseconds of delay a trace has asked for. *)
Fixpoint totalDelay (t : list Event) : Z :=
  match t with
  | [] => 0
  | EvDelay ms :: t' => ms + totalDelay t'
  | _ :: t' => totalDelay t'
  end.


(** A robot with trims 3 and -2 saved for servos 0 and 1 and a working
    table that has drifted from them. *)
Definition savedRobot : Robot :=
  mkRobot (setTrimAngles [1; 1; 1; 1; 1; 1; 1; 1] restWorld) 60
          [3; -2; 0; 0; 0; 0; 0; 0].

(** The slot [transformAndSetAllServos] and [transformAndSetPivotServos]
    compute for the canonical pivot index [c], with the index to add cut
    to a byte first as the source does. *)
Definition effectivePivotServoIndex (c aDirection : Z) (doMirror : bool) : Z :=
  to_uint8 (Z.lxor (Z.rem (c + to_uint8 (aDirection * SERVOS_PER_LEG)) NUMBER_OF_SERVOS)
                   (if doMirror then getMirrorXorMask aDirection else 0)).

(** A [write] that puts the servo at the angle at once. *)
Definition specWriteLib : ServoWriteLib :=
  {| lib_write := spec_easeTo |}.

(** * Properties *)

Ltac split_buffer l H :=
  do 8 (destruct l as [|? l]; [simpl in H; lia|]); clear H.

(** ** Machine integers *)

Lemma to_int_id (z : Z) : is_int z -> to_int z = z.
Proof.
  unfold is_int, INT_MIN, INT_MAX, to_int, wrap_signed. intros Hz.
  change (2 ^ (16 - 1)) with 32768. change (2 ^ 16) with 65536.
  rewrite Z.mod_small; lia.
Qed.

Lemma int_sub_exact (a : Z) : invertible_angle a -> int_sub 180 a = 180 - a.
Proof.
  unfold invertible_angle, INT_MIN, INT_MAX. intros Ha.
  unfold int_sub. apply to_int_id. unfold is_int, INT_MIN, INT_MAX. lia.
Qed.

Lemma to_long_id (z : Z) : -2147483648 <= z <= 2147483647 -> to_long z = z.
Proof.
  unfold to_long, wrap_signed. intros Hz.
  change (2 ^ (32 - 1)) with 2147483648. change (2 ^ 32) with 4294967296.
  rewrite Z.mod_small; lia.
Qed.

(** ** The motion loops leave the staging buffer alone *)

Section Frame.
Context `{lib : ServoEasingLib}.

Lemma updateAndCheckInputAndWaitForAllServosToStop_buffer fuel w :
  sServoNextPositionArray
    (snd (updateAndCheckInputAndWaitForAllServosToStop fuel w))
  = sServoNextPositionArray w.
Proof.
  revert w. induction fuel as [|fuel IH]; intros w; simpl; [reflexivity|].
  destruct (sRequestToStopReceived w || _)%bool; simpl; [reflexivity|].
  destruct (forallb snd _); simpl; [reflexivity|].
  rewrite IH. reflexivity.
Qed.

Lemma synchronizeMoveAllServosAndCheckInputAndWait_buffer fuel w :
  sServoNextPositionArray
    (snd (synchronizeMoveAllServosAndCheckInputAndWait fuel w))
  = sServoNextPositionArray w.
Proof.
  unfold synchronizeMoveAllServosAndCheckInputAndWait.
  rewrite updateAndCheckInputAndWaitForAllServosToStop_buffer. reflexivity.
Qed.

Lemma moveOneServoAndCheckInputAndWait_loop_buffer fuel idx w :
  sServoNextPositionArray
    (snd (moveOneServoAndCheckInputAndWait_loop fuel idx w))
  = sServoNextPositionArray w.
Proof.
  revert w. induction fuel as [|fuel IH]; intros w; simpl; [reflexivity|].
  destruct (sRequestToStopReceived w || _)%bool; simpl; [reflexivity|].
  unfold servoUpdate; simpl.
  destruct (sServoArray w !! Z.to_nat idx) as [s|]; simpl; [|reflexivity].
  destruct (snd (lib_update s)); simpl; [reflexivity|].
  rewrite IH. reflexivity.
Qed.
End Frame.

(** ** The index transform *)

Section Transform.
Context `{lib : ServoEasingLib}.

(** The buffer [transformAndSetAllServos] leaves does not depend on
    whether the move is started afterwards. *)
Lemma transformAndSetAllServos_buffer_move fuel aFLP aBLP aBRP aFRP
      aFLL aBLL aBRL aFRL aDirection doMirror aDoMove w :
  sServoNextPositionArray
    (snd (transformAndSetAllServos fuel aFLP aBLP aBRP aFRP aFLL aBLL aBRL aFRL
            aDirection doMirror aDoMove w))
  = sServoNextPositionArray
      (snd (transformAndSetAllServos fuel aFLP aBLP aBRP aFRP aFLL aBLL aBRL aFRL
              aDirection doMirror false w)).
Proof.
  unfold transformAndSetAllServos. cbv zeta.
  destruct aDoMove; [|reflexivity].
  rewrite synchronizeMoveAllServosAndCheckInputAndWait_buffer. reflexivity.
Qed.

Lemma transformAndSetPivotServos_buffer_move fuel aFLP aBLP aBRP aFRP
      aDirection doMirror aDoMove w :
  sServoNextPositionArray
    (snd (transformAndSetPivotServos fuel aFLP aBLP aBRP aFRP
            aDirection doMirror aDoMove w))
  = sServoNextPositionArray
      (snd (transformAndSetPivotServos fuel aFLP aBLP aBRP aFRP
              aDirection doMirror false w)).
Proof.
  unfold transformAndSetPivotServos. cbv zeta.
  destruct aDoMove; [|reflexivity].
  rewrite synchronizeMoveAllServosAndCheckInputAndWait_buffer. reflexivity.
Qed.

(** C1: for every canonical pivot role, direction and mirror flag,
    [transformAndSetAllServos] leaves the pivot angle of that role
    (180 minus it when mirroring, the angle itself otherwise) in the
    slot ((c + d*2) mod 8) XOR mask, where mask is 0 without mirroring,
    0x2 for a mirrored side direction and 0x6 for a mirrored Forward or
    Backward. *)
Theorem transformAndSetAllServos_pivot_slot
    (fuel : nat) (pivot lift : Leg -> Z) (d : Direction) (m aDoMove : bool)
    (w : World) (c : Leg) :
  (8 <= length (sServoNextPositionArray w))%nat ->
  (m = true -> forall l, invertible_angle (pivot l)) ->
  sServoNextPositionArray
    (snd (transformAndSetAllServos fuel
            (pivot FrontLeft) (pivot BackLeft) (pivot BackRight) (pivot FrontRight)
            (lift FrontLeft) (lift BackLeft) (lift BackRight) (lift FrontRight)
            (direction_value d) m aDoMove w))
    !! Z.to_nat (spec_physical_index (pivot_index c) d m)
  = Some (spec_pivot_angle m (pivot c)).
Proof.
  intros Hlen Hpivot.
  rewrite transformAndSetAllServos_buffer_move.
  unfold transformAndSetAllServos, spec_pivot_angle. cbv zeta.
  destruct m; unfold invertIf;
    rewrite ?int_sub_exact by (apply Hpivot; reflexivity);
    destruct w as [sv buf tr sp st pe tc so]; simpl in Hlen;
    split_buffer buf Hlen;
    destruct d, c; reflexivity.
Qed.
End Transform.

Lemma testPivot_invertible (l : Leg) : invertible_angle (testPivot l).
Proof. destruct l; unfold invertible_angle, INT_MIN, INT_MAX; simpl; lia. Qed.

Lemma restWorld_buffer : (8 <= length (sServoNextPositionArray restWorld))%nat.
Proof. simpl. lia. Qed.

(** The mirrored Forward posture of the test routine puts the inverted
    front-left pivot angle, 0, into slot 6. *)
Lemma transformAndSetAllServos_pivot_slot_witness :
  sServoNextPositionArray
    (snd (@transformAndSetAllServos specLib 0 180 1 135 30 111 0 0 0
            MOVE_DIRECTION_FORWARD true false restWorld))
    !! 6%nat = Some 0.
Proof.
  exact (@transformAndSetAllServos_pivot_slot specLib 0 testPivot testLift
           Forward true false restWorld FrontLeft
           restWorld_buffer (fun _ => testPivot_invertible)).
Defined.

(** C2: for a fixed direction and mirror flag, [transformOneServoIndex]
    computes ((i + d*2) mod 8) XOR mask on the four canonical pivot
    indices and sends them to four pairwise distinct physical indices. *)
Theorem transformOneServoIndex_pivots_distinct (d : Direction) (m : bool) :
  (forall c : Leg,
      transformOneServoIndex (pivot_index c) (direction_value d) m
      = spec_physical_index (pivot_index c) d m)
  /\ NoDup (map (fun c => transformOneServoIndex (pivot_index c) (direction_value d) m)
                [FrontLeft; BackLeft; BackRight; FrontRight]).
Proof.
  split.
  - intros c. destruct d, m, c; reflexivity.
  - destruct d, m; vm_compute;
      repeat (apply NoDup_cons_2; [rewrite ?elem_of_cons, elem_of_nil; intuition discriminate|]);
      apply NoDup_nil_2.
Qed.

Section Pivot.
Context `{lib : ServoEasingLib}.

(** C3: the reduced path leaves in every pivot slot (the even slots
    0, 2, 4, 6) what the full path leaves there for the same pivot
    angles, direction and mirror flag, and leaves every other slot, the
    lift slots among them, as it was. *)
Theorem transformAndSetPivotServos_same_pivots
    (fuel : nat) (aFLP aBLP aBRP aFRP aFLL aBLL aBRL aFRL : Z)
    (d : Direction) (m aDoMove : bool) (w : World) (i : nat) :
  (8 <= length (sServoNextPositionArray w))%nat ->
  let reduced :=
    sServoNextPositionArray
      (snd (transformAndSetPivotServos fuel aFLP aBLP aBRP aFRP
              (direction_value d) m false w)) in
  let full :=
    sServoNextPositionArray
      (snd (transformAndSetAllServos fuel aFLP aBLP aBRP aFRP aFLL aBLL aBRL aFRL
              (direction_value d) m aDoMove w)) in
  length reduced = length (sServoNextPositionArray w)
  /\ (Nat.even i = true -> (i < 8)%nat -> reduced !! i = full !! i)
  /\ (Nat.even i = false \/ (8 <= i)%nat ->
      reduced !! i = sServoNextPositionArray w !! i).
Proof.
  intros Hlen reduced full. subst reduced full.
  rewrite transformAndSetAllServos_buffer_move.
  unfold transformAndSetAllServos, transformAndSetPivotServos. cbv zeta.
  generalize (invertIf (if m then true else false) aFLP)
             (invertIf (if m then true else false) aBLP)
             (invertIf (if m then true else false) aBRP)
             (invertIf (if m then true else false) aFRP).
  intros p0 p1 p2 p3.
  destruct w as [sv buf tr sp st pe tc so]; simpl in Hlen.
  split_buffer buf Hlen.
  destruct d, m; simpl; (split; [reflexivity|]);
    (split; [intros Hev Hi | intros [Hodd|Hi]]);
    do 8 (destruct i as [|i];
          [first [reflexivity | simpl in *; discriminate | lia]|]);
    first [reflexivity | lia].
Qed.
End Pivot.

(** On the rest world, mirrored Left: slot 2 is a pivot slot and holds
    what the full path stores there. *)
Lemma transformAndSetPivotServos_same_pivots_witness :
  sServoNextPositionArray
    (snd (@transformAndSetPivotServos specLib 0 180 1 135 30
            MOVE_DIRECTION_LEFT true false restWorld)) !! 2%nat
  = sServoNextPositionArray
      (snd (@transformAndSetAllServos specLib 0 180 1 135 30 111 0 0 0
              MOVE_DIRECTION_LEFT true false restWorld)) !! 2%nat.
Proof.
  exact (proj1 (proj2 (@transformAndSetPivotServos_same_pivots specLib 0
           180 1 135 30 111 0 0 0 Left true false restWorld 2%nat
           restWorld_buffer)) eq_refl ltac:(lia)).
Defined.

(** ** Mirror inversion and the lift slots *)

Lemma invertIf_involutive (a : Z) : is_int a -> invertIf true (invertIf true a) = a.
Proof.
  unfold is_int, INT_MIN, INT_MAX. intros Ha.
  unfold invertIf, int_sub, to_int, wrap_signed.
  change (2 ^ (16 - 1)) with 32768. change (2 ^ 16) with 65536.
  replace (180 - ((180 - a + 32768) mod 65536 - 32768) + 32768)
    with (65716 - (180 - a + 32768) mod 65536) by lia.
  rewrite Zminus_mod_idemp_r.
  replace (65716 - (180 - a + 32768)) with (a + 32768) by lia.
  rewrite Z.mod_small; lia.
Qed.

Section Lift.
Context `{lib : ServoEasingLib}.

(** C6: inverting a pivot angle twice gives the angle back, and for
    every direction and mirror flag [transformAndSetAllServos] leaves
    each lift angle, as it was given, in the slot one past the
    transformed pivot index of its leg. *)
Theorem mirror_inversion_involutive_lift_kept
    (fuel : nat) (pivot lift : Leg -> Z) (d : Direction) (m aDoMove : bool)
    (w : World) (c : Leg) (a : Z) :
  is_int a ->
  (8 <= length (sServoNextPositionArray w))%nat ->
  invertIf true (invertIf true a) = a
  /\ sServoNextPositionArray
       (snd (transformAndSetAllServos fuel
               (pivot FrontLeft) (pivot BackLeft) (pivot BackRight) (pivot FrontRight)
               (lift FrontLeft) (lift BackLeft) (lift BackRight) (lift FrontRight)
               (direction_value d) m aDoMove w))
       !! Z.to_nat (transformOneServoIndex (pivot_index c) (direction_value d) m
                    + LIFT_SERVO_OFFSET)
     = Some (lift c).
Proof.
  intros Ha Hlen. split; [apply invertIf_involutive; exact Ha|].
  rewrite transformAndSetAllServos_buffer_move.
  unfold transformAndSetAllServos. cbv zeta.
  generalize (invertIf (if m then true else false) (pivot FrontLeft))
             (invertIf (if m then true else false) (pivot BackLeft))
             (invertIf (if m then true else false) (pivot BackRight))
             (invertIf (if m then true else false) (pivot FrontRight)).
  intros p0 p1 p2 p3.
  destruct w as [sv buf tr sp st pe tc so]; simpl in Hlen.
  split_buffer buf Hlen.
  destruct d, m, c; reflexivity.
Qed.
End Lift.

Lemma is_int_180 : is_int 180.
Proof. unfold is_int, INT_MIN, INT_MAX. lia. Qed.

(** Inverting 180 twice gives 180, and the mirrored Forward posture of
    the test routine leaves the front-left lift angle 111 in slot 7. *)
Lemma mirror_inversion_involutive_lift_kept_witness :
  invertIf true (invertIf true 180) = 180
  /\ sServoNextPositionArray
       (snd (@transformAndSetAllServos specLib 0 180 1 135 30 111 0 0 0
               MOVE_DIRECTION_FORWARD true false restWorld))
       !! 7%nat = Some 111.
Proof.
  exact (@mirror_inversion_involutive_lift_kept specLib 0 testPivot testLift
           Forward true false restWorld FrontLeft 180 is_int_180 restWorld_buffer).
Defined.

(** ** The staging buffer *)

Lemma stage_length (i v : Z) (w : World) :
  length (sServoNextPositionArray (stage i v w)) = length (sServoNextPositionArray w).
Proof. unfold stage. simpl. apply length_insert. Qed.

Lemma stage_lookup (i j v : Z) (w : World) :
  0 <= i -> 0 <= j < Z.of_nat (length (sServoNextPositionArray w)) ->
  sServoNextPositionArray (stage j v w) !! Z.to_nat i
  = if Z.eqb j i then Some v else sServoNextPositionArray w !! Z.to_nat i.
Proof.
  intros Hi Hj. unfold stage. simpl.
  destruct (Z.eqb_spec j i) as [->|Hne].
  - apply list_lookup_insert_eq. lia.
  - apply list_lookup_insert_ne. lia.
Qed.

Lemma stageAll_lookup (ws : list (Z * Z)) (w : World) (i : Z) :
  0 <= i ->
  Forall (fun p => 0 <= fst p < Z.of_nat (length (sServoNextPositionArray w))) ws ->
  sServoNextPositionArray (stageAll ws w) !! Z.to_nat i
  = match lastWrite i ws with
    | Some v => Some v
    | None => sServoNextPositionArray w !! Z.to_nat i
    end.
Proof.
  intros Hi. revert w.
  induction ws as [|[j v] ws IH]; intros w Hws; [reflexivity|].
  apply Forall_cons in Hws. destruct Hws as [Hj Hws]. simpl in Hj.
  unfold stageAll. simpl. fold (stageAll ws (stage j v w)).
  rewrite IH by (rewrite stage_length; exact Hws).
  destruct (lastWrite i ws); [reflexivity|].
  rewrite stage_lookup by assumption.
  destruct (Z.eqb j i); reflexivity.
Qed.

(** ** The shape of the two polling loops *)

Section Loops.
Context `{lib : ServoEasingLib}.

Lemma updateAndCheckInputAndWaitForAllServosToStop_pollLoop fuel w :
  updateAndCheckInputAndWaitForAllServosToStop fuel w = pollLoop advanceAll fuel w.
Proof.
  revert w. induction fuel as [|fuel IH]; intros w; simpl; [reflexivity|].
  destruct (sRequestToStopReceived w || _)%bool; simpl; [reflexivity|].
  destruct (forallb snd _); simpl; [reflexivity|]. apply IH.
Qed.

Lemma moveOneServoAndCheckInputAndWait_loop_pollLoop fuel idx w :
  moveOneServoAndCheckInputAndWait_loop fuel idx w = pollLoop (servoUpdate idx) fuel w.
Proof.
  revert w. induction fuel as [|fuel IH]; intros w; simpl; [reflexivity|].
  destruct (sRequestToStopReceived w || _)%bool; simpl; [reflexivity|].
  destruct (servoUpdate idx _) as [[w' done]|]; [|reflexivity].
  destruct done; [reflexivity|]. apply IH.
Qed.

Lemma advanceAll_trace w w' b :
  advanceAll w = Some (w', b) -> trace w' = trace w ++ [EvUpdateAllServos b].
Proof. unfold advanceAll, updateAllServos. intros [= <- <-]. reflexivity. Qed.

Lemma servoUpdate_trace idx w w' b :
  servoUpdate idx w = Some (w', b) -> trace w' = trace w ++ [EvUpdate idx b].
Proof.
  unfold servoUpdate. destruct (sServoArray w !! Z.to_nat idx); [|discriminate].
  intros [= <- <-]. reflexivity.
Qed.
End Loops.

Section PollLoop.
Variable advance : World -> option (World * bool).
Variable upd : bool -> Event.
Hypothesis advance_trace :
  forall w w' b, advance w = Some (w', b) -> trace w' = trace w ++ [upd b].

Lemma pollLoop_shape fuel w :
  exists k : nat,
    (k <= fuel)%nat
    /\ (fst (pollLoop advance fuel w) = OutOfFuel -> k = fuel)
    /\ trace (snd (pollLoop advance fuel w))
       = trace w ++ concat (replicate k (passEvents upd))
                 ++ exitEvents upd (fst (pollLoop advance fuel w)).
Proof.
  revert w. induction fuel as [|fuel IH]; intros w.
  - exists 0%nat. simpl. rewrite app_nil_r. auto.
  - simpl. destruct (sRequestToStopReceived w || _)%bool eqn:Hstop; simpl.
    + exists 0%nat. simpl. rewrite <- app_assoc. repeat split; [lia|discriminate].
    + match goal with |- context [advance ?x] => destruct (advance x) as [[w' done]|] eqn:Hadv end.
      * apply advance_trace in Hadv. simpl in Hadv.
        destruct done; simpl.
        -- exists 0%nat. rewrite Hadv. simpl. rewrite <- !app_assoc.
           repeat split; [lia|discriminate].
        -- destruct (IH w') as (k & Hk & Hfuel & Htr).
           exists (S k). repeat split; [lia|intros Ho; f_equal; auto|].
           rewrite Htr, Hadv. simpl. rewrite <- !app_assoc. reflexivity.
      * exists 0%nat. simpl. rewrite <- !app_assoc.
        repeat split; [lia|discriminate].
Qed.

Lemma pollLoop_cancel_now fuel w :
  sRequestToStopReceived (checkIRInput w) = true ->
  pollLoop advance (S fuel) w
  = (Canceled, logEvent (EvStopCheck true) (checkIRInput w)).
Proof.
  intros Hstop. simpl in *. rewrite Hstop. reflexivity.
Qed.

Lemma pollLoop_canceled fuel w w' :
  pollLoop advance fuel w = (Canceled, w') ->
  exists k wh,
    (k < fuel)%nat
    /\ loopHead advance w k wh
    /\ sRequestToStopReceived (checkIRInput wh) = true
    /\ w' = logEvent (EvStopCheck true) (checkIRInput wh).
Proof.
  assert (Hgen : forall w0 n w, loopHead advance w0 n w ->
            pollLoop advance fuel w = (Canceled, w') ->
            exists k wh, (k < n + fuel)%nat
              /\ loopHead advance w0 k wh
              /\ sRequestToStopReceived (checkIRInput wh) = true
              /\ w' = logEvent (EvStopCheck true) (checkIRInput wh)).
  { induction fuel as [|fuel' IH]; intros w0 n w1 Hhead Hrun; [discriminate|].
    simpl in Hrun.
    destruct (sRequestToStopReceived w1 || _)%bool eqn:Hstop.
    - injection Hrun as <-. exists n, w1. repeat split; [lia|assumption..].
    - match type of Hrun with context [advance ?x] =>
        destruct (advance x) as [[w2 done]|] eqn:Hadv end; [|discriminate].
      destruct done; [discriminate|].
      destruct (IH w0 (S n) w2) as (k & wh & Hk & Hrest); [|exact Hrun|].
      + apply (loopHead_next advance w0 n w1 w2 Hhead); [exact Hstop|].
        simpl. rewrite Hstop. exact Hadv.
      + exists k, wh. split; [lia|exact Hrest]. }
  apply (Hgen w 0%nat w). apply loopHead_start.
Qed.

Lemma pollLoop_from_head w0 k wh :
  loopHead advance w0 k wh ->
  forall fuel, pollLoop advance (k + fuel) w0 = pollLoop advance fuel wh.
Proof.
  induction 1 as [|k w w' Hhead IH Hstop Hadv]; intros fuel; [reflexivity|].
  replace (S k + fuel)%nat with (k + S fuel)%nat by lia.
  rewrite IH. simpl in *. rewrite Hstop. simpl. rewrite Hstop in Hadv.
  simpl in Hadv. rewrite Hadv. reflexivity.
Qed.

Lemma pollLoop_first_pass fuel w :
  fst (pollLoop advance (S fuel) w) <> Fault ->
  exists b rest,
    trace (snd (pollLoop advance (S fuel) w))
    = trace w ++ [EvCheckIRInput; EvStopCheck b] ++ rest
    /\ (if b then rest = []
        else exists done rest',
            rest = EvDelay (Z.quot REFRESH_INTERVAL 1000) :: upd done :: rest').
Proof.
  intros Hfault.
  destruct (pollLoop_shape (S fuel) w) as (k & Hk & Hfuel & Htr).
  rewrite Htr. destruct k as [|k].
  - destruct (fst (pollLoop advance (S fuel) w)) eqn:Ho.
    + exists false, [EvDelay (Z.quot REFRESH_INTERVAL 1000); upd true].
      split; [reflexivity|]. exists true, []. reflexivity.
    + exists true, []. split; reflexivity.
    + specialize (Hfuel eq_refl). discriminate.
    + contradiction.
  - exists false. eexists. split.
    + simpl. reflexivity.
    + exists false. eexists. reflexivity.
Qed.
Lemma pollLoop_first_pass_go fuel w :
  sRequestToStopReceived (checkIRInput w) = false ->
  fst (pollLoop advance (S fuel) w) <> Fault ->
  exists done rest',
    trace (snd (pollLoop advance (S fuel) w))
    = trace w ++ [EvCheckIRInput; EvStopCheck false;
                  EvDelay (Z.quot REFRESH_INTERVAL 1000); upd done] ++ rest'.
Proof.
  intros Hgo Hfault. simpl in *. rewrite Hgo in *. simpl in *.
  match goal with |- context [advance ?x] =>
    destruct (advance x) as [[w' done]|] eqn:Hadv end; [|contradiction].
  apply advance_trace in Hadv. simpl in Hadv.
  destruct done; simpl.
  - exists true, []. rewrite Hadv, <- !app_assoc. reflexivity.
  - destruct (pollLoop_shape fuel w') as (k & _ & _ & Htr).
    exists false. eexists. rewrite Htr, Hadv, <- !app_assoc. reflexivity.
Qed.
End PollLoop.

(** ** Cancellation, stop checks and the first pass *)

Section Driver.
Context `{lib : ServoEasingLib}.

(** C4: when the poll at the head of the loop observes the stop
    condition, after any number of passes, both loops return at once as
    canceled: the world they leave is the world at that poll with the
    poll and the stop check logged and nothing else, so no tick is
    waited, no actuator is advanced or retargeted and the staging
    buffer is not written; every actuator keeps the angle it had
    reached. *)
Theorem stop_observed_exits_at_once
    (idx : Z) (w0 wh : World) (k fuel : nat) :
  sRequestToStopReceived (checkIRInput wh) = true ->
  let stopped := logEvent (EvStopCheck true) (checkIRInput wh) in
  (loopHead advanceAll w0 k wh ->
   updateAndCheckInputAndWaitForAllServosToStop (k + S fuel) w0 = (Canceled, stopped))
  /\ (loopHead (servoUpdate idx) w0 k wh ->
      moveOneServoAndCheckInputAndWait_loop (k + S fuel) idx w0 = (Canceled, stopped))
  /\ sServoArray stopped = sServoArray wh
  /\ sServoNextPositionArray stopped = sServoNextPositionArray wh
  /\ trace stopped = trace wh ++ [EvCheckIRInput; EvStopCheck true].
Proof.
  intros Hstop stopped. subst stopped. repeat split.
  - intros Hhead.
    rewrite updateAndCheckInputAndWaitForAllServosToStop_pollLoop.
    rewrite (pollLoop_from_head _ _ _ _ Hhead).
    apply pollLoop_cancel_now. exact Hstop.
  - intros Hhead.
    rewrite moveOneServoAndCheckInputAndWait_loop_pollLoop.
    rewrite (pollLoop_from_head _ _ _ _ Hhead).
    apply pollLoop_cancel_now. exact Hstop.
  - simpl. rewrite <- app_assoc. reflexivity.
Qed.

(** C7, as the code has it: what either loop logs is a number of full
    passes, each a poll, a stop check that finds no stop, one tick of
    delay and an advance step that does not complete the motion,
    followed by the leaving pass: a poll and a stop check that finds
    the stop, or a poll, a stop check, the delay and the advance step
    that completes the motion, after which nothing is logged.  So every
    poll is followed at once by a stop check, and an advance step that
    does not complete the motion is followed by a poll and a stop check
    before the next advance step. *)
Theorem loops_trace_shape (fuel : nat) (idx : Z) (w : World) :
  (exists k : nat,
      (k <= fuel)%nat
      /\ trace (snd (updateAndCheckInputAndWaitForAllServosToStop fuel w))
         = trace w ++ concat (replicate k (passEvents EvUpdateAllServos))
             ++ exitEvents EvUpdateAllServos
                  (fst (updateAndCheckInputAndWaitForAllServosToStop fuel w)))
  /\ (exists k : nat,
         (k <= fuel)%nat
         /\ trace (snd (moveOneServoAndCheckInputAndWait_loop fuel idx w))
            = trace w ++ concat (replicate k (passEvents (EvUpdate idx)))
                ++ exitEvents (EvUpdate idx)
                     (fst (moveOneServoAndCheckInputAndWait_loop fuel idx w))).
Proof.
  split.
  - rewrite updateAndCheckInputAndWaitForAllServosToStop_pollLoop.
    destruct (pollLoop_shape advanceAll EvUpdateAllServos advanceAll_trace fuel w)
      as (k & Hk & _ & Htr).
    exists k. split; assumption.
  - rewrite moveOneServoAndCheckInputAndWait_loop_pollLoop.
    destruct (pollLoop_shape (servoUpdate idx) (EvUpdate idx) (servoUpdate_trace idx) fuel w)
      as (k & Hk & _ & Htr).
    exists k. split; assumption.
Qed.

Lemma trace_logEvent (e : Event) (w : World) : trace (logEvent e w) = trace w ++ [e].
Proof. reflexivity. Qed.

Lemma trace_checkIRInput (w : World) :
  trace (checkIRInput w) = trace w ++ [EvCheckIRInput].
Proof. reflexivity. Qed.

Lemma servoUpdate_valid idx w w' b :
  servoUpdate idx w = Some (w', b) -> is_Some (sServoArray w' !! Z.to_nat idx).
Proof.
  unfold servoUpdate.
  destruct (sServoArray w !! Z.to_nat idx) as [s|] eqn:Hs; [|discriminate].
  intros [= <- <-]. simpl. apply lookup_lt_Some in Hs.
  rewrite list_lookup_insert_eq by exact Hs. eauto.
Qed.

Lemma moveOneServoAndCheckInputAndWait_loop_no_fault fuel idx w :
  is_Some (sServoArray w !! Z.to_nat idx) ->
  fst (pollLoop (servoUpdate idx) fuel w) <> Fault.
Proof.
  revert w. induction fuel as [|fuel IH]; intros w Hvalid; simpl; [discriminate|].
  destruct (sRequestToStopReceived w || _)%bool; simpl; [discriminate|].
  match goal with |- context [servoUpdate idx ?x] =>
    destruct (servoUpdate idx x) as [[w' done]|] eqn:Hupd end.
  - destruct done; [discriminate|].
    apply IH. eapply servoUpdate_valid. exact Hupd.
  - exfalso. unfold servoUpdate in Hupd. simpl in Hupd.
    destruct Hvalid as [s Hs]. rewrite Hs in Hupd. discriminate.
Qed.

Lemma updateAndCheckInputAndWaitForAllServosToStop_no_fault fuel w :
  fst (pollLoop advanceAll fuel w) <> Fault.
Proof.
  revert w. induction fuel as [|fuel IH]; intros w; simpl; [discriminate|].
  destruct (sRequestToStopReceived w || _)%bool; simpl; [discriminate|].
  destruct (forallb snd _); simpl; [discriminate|]. apply IH.
Qed.

(** C10, as the code has it: every call of the single-servo move on a
    servo of the registry, whatever its current and target angles, first
    starts the easing, then polls the remote and checks the stop
    condition.  When that check finds a stop request the call returns
    with nothing more: no delay and no test of completion.  Otherwise a
    delay of REFRESH_INTERVAL / 1000 = 20 milliseconds and then the
    first test of completion follow.  The loop over all servos starts
    its first pass the same way. *)
Theorem first_pass_before_completion_check
    (fuel : nat) (idx deg speed : Z) (w : World) :
  is_Some (sServoArray w !! Z.to_nat idx) ->
  Z.quot REFRESH_INTERVAL 1000 = 20
  /\ (exists rest,
         trace (snd (moveOneServoAndCheckInputAndWait (S fuel) idx deg speed w))
         = trace w ++ [EvStartEaseTo idx deg speed; EvCheckIRInput;
                       EvStopCheck (sRequestToStopReceived (checkIRInput w))] ++ rest
         /\ (if sRequestToStopReceived (checkIRInput w)
             then rest = []
                  /\ fst (moveOneServoAndCheckInputAndWait (S fuel) idx deg speed w)
                     = Canceled
             else exists done rest',
                 rest = EvDelay (Z.quot REFRESH_INTERVAL 1000)
                          :: EvUpdate idx done :: rest'))
  /\ (exists rest,
         trace (snd (updateAndCheckInputAndWaitForAllServosToStop (S fuel) w))
         = trace w ++ [EvCheckIRInput;
                       EvStopCheck (sRequestToStopReceived (checkIRInput w))] ++ rest
         /\ (if sRequestToStopReceived (checkIRInput w)
             then rest = []
                  /\ fst (updateAndCheckInputAndWaitForAllServosToStop (S fuel) w)
                     = Canceled
             else exists done rest',
                 rest = EvDelay (Z.quot REFRESH_INTERVAL 1000)
                          :: EvUpdateAllServos done :: rest')).
Proof.
  intros [s Hs]. split; [reflexivity|]. split.
  - unfold moveOneServoAndCheckInputAndWait, servoStartEaseTo. rewrite Hs.
    rewrite moveOneServoAndCheckInputAndWait_loop_pollLoop.
    match goal with |- context [pollLoop _ _ ?x] => set (w1 := x) end.
    assert (Hflag : sRequestToStopReceived (checkIRInput w1)
                    = sRequestToStopReceived (checkIRInput w)) by reflexivity.
    assert (Htr1 : trace w1 = trace w ++ [EvStartEaseTo idx deg speed])
      by reflexivity.
    destruct (sRequestToStopReceived (checkIRInput w)) eqn:Hb.
    + rewrite (pollLoop_cancel_now (servoUpdate idx) fuel w1 Hflag).
      exists []. split; [|split; reflexivity].
      cbn [snd]. rewrite trace_logEvent, trace_checkIRInput, Htr1, <- !app_assoc.
      reflexivity.
    + destruct (pollLoop_first_pass_go (servoUpdate idx) (EvUpdate idx)
                  (servoUpdate_trace idx) fuel w1 Hflag)
        as (done & rest' & Htr).
      * apply moveOneServoAndCheckInputAndWait_loop_no_fault.
        subst w1. simpl. apply lookup_lt_Some in Hs.
        rewrite list_lookup_insert_eq by exact Hs. eauto.
      * eexists. split; [|exists done, rest'; reflexivity].
        rewrite Htr, Htr1, <- !app_assoc. reflexivity.
  - rewrite updateAndCheckInputAndWaitForAllServosToStop_pollLoop.
    destruct (sRequestToStopReceived (checkIRInput w)) eqn:Hb.
    + rewrite (pollLoop_cancel_now advanceAll fuel w Hb).
      exists []. split; [|split; reflexivity].
      cbn [snd]. rewrite trace_logEvent, trace_checkIRInput, <- !app_assoc.
      reflexivity.
    + destruct (pollLoop_first_pass_go advanceAll EvUpdateAllServos
                  advanceAll_trace fuel w Hb) as (done & rest' & Htr).
      * apply updateAndCheckInputAndWaitForAllServosToStop_no_fault.
      * eexists. split; [|exists done, rest'; reflexivity].
        rewrite Htr. reflexivity.
Qed.
End Driver.

Lemma movingWorld_head : loopHead (@servoUpdate specLib 0) movingWorld 1 movingWorld1.
Proof.
  apply (loopHead_next _ _ 0%nat movingWorld movingWorld1);
    [apply loopHead_start | reflexivity | reflexivity].
Qed.

(** Servo 0 is on its way from 90 to 95 degrees; the second poll sees the
    stop request and the loop leaves with the servo at 91 degrees. *)
Lemma stop_observed_exits_at_once_witness :
  @moveOneServoAndCheckInputAndWait_loop specLib 3 0 movingWorld
  = (Canceled, logEvent (EvStopCheck true) (checkIRInput movingWorld1)).
Proof.
  exact (proj1 (proj2 (@stop_observed_exits_at_once specLib 0 movingWorld
                         movingWorld1 1 1 eq_refl))
               movingWorld_head).
Defined.

(** C7 fails as stated: servo 0 moves from 90 to 92 degrees in two
    passes, the second advance step completes the motion and the loop
    returns with no stop check after it. *)
Lemma stop_not_checked_after_completing_advance :
  fst (@moveOneServoAndCheckInputAndWait specLib 5 0 92 90 restWorld) = Completed
  /\ trace (snd (@moveOneServoAndCheckInputAndWait specLib 5 0 92 90 restWorld))
     = [EvStartEaseTo 0 92 90;
        EvCheckIRInput; EvStopCheck false; EvDelay 20; EvUpdate 0 false;
        EvCheckIRInput; EvStopCheck false; EvDelay 20; EvUpdate 0 true]
  /\ stopCheckedAfterEveryAdvance
       (trace (snd (@moveOneServoAndCheckInputAndWait specLib 5 0 92 90 restWorld)))
     = false.
Proof. repeat split. Qed.

Lemma restWorld_servo0 : is_Some (sServoArray restWorld !! Z.to_nat 0).
Proof. eexists. reflexivity. Qed.

(** C10 fails as stated: with a stop request pending on the remote the
    call polls, finds the stop and returns canceled; no delay is asked
    for and completion is never tested. *)
Lemma stop_pending_call_has_no_delay :
  fst (@moveOneServoAndCheckInputAndWait specLib 5 0 90 90 stopPendingWorld) = Canceled
  /\ trace (snd (@moveOneServoAndCheckInputAndWait specLib 5 0 90 90 stopPendingWorld))
     = [EvStartEaseTo 0 90 90; EvCheckIRInput; EvStopCheck true]
  /\ totalDelay
       (trace (snd (@moveOneServoAndCheckInputAndWait specLib 5 0 90 90 stopPendingWorld)))
     = 0.
Proof. repeat split. Qed.

(** Servo 0 is already at the requested 90 degrees: the call still polls,
    checks the stop condition and waits 20 ms before it tests completion. *)
Lemma first_pass_before_completion_check_witness :
  exists rest,
    trace (snd (@moveOneServoAndCheckInputAndWait specLib 1 0 90 90 restWorld))
    = trace restWorld ++ [EvStartEaseTo 0 90 90; EvCheckIRInput; EvStopCheck false]
        ++ rest
    /\ exists done rest',
        rest = EvDelay (Z.quot REFRESH_INTERVAL 1000) :: EvUpdate 0 done :: rest'.
Proof.
  exact (proj1 (proj2 (@first_pass_before_completion_check specLib 0 0 90 90
                         restWorld restWorld_servo0))).
Defined.

(** ** Last write wins *)

Lemma stageAll_length (ws : list (Z * Z)) (w : World) :
  length (sServoNextPositionArray (stageAll ws w)) = length (sServoNextPositionArray w).
Proof.
  revert w. induction ws as [|[j v] ws IH]; intros w; [reflexivity|].
  unfold stageAll. simpl. fold (stageAll ws (stage j v w)).
  rewrite IH. apply stage_length.
Qed.

Lemma stageAll_trace (ws : list (Z * Z)) (w : World) :
  trace (stageAll ws w) = trace w.
Proof.
  revert w. induction ws as [|[j v] ws IH]; intros w; [reflexivity|].
  unfold stageAll. simpl. fold (stageAll ws (stage j v w)).
  rewrite IH. reflexivity.
Qed.

Section Staging.
Context `{lib : ServoEasingLib}.

Lemma synchronizeMoveAllServosAndCheckInputAndWait_trace fuel w :
  exists rest,
    trace (snd (synchronizeMoveAllServosAndCheckInputAndWait fuel w))
    = trace w ++ EvSetEaseToForAllServos (sServoNextPositionArray w) :: rest.
Proof.
  unfold synchronizeMoveAllServosAndCheckInputAndWait.
  rewrite updateAndCheckInputAndWaitForAllServosToStop_pollLoop.
  match goal with |- context [pollLoop _ _ ?x] => set (w1 := x) end.
  destruct (pollLoop_shape advanceAll EvUpdateAllServos advanceAll_trace fuel w1)
    as (k & _ & _ & Htr).
  rewrite Htr. subst w1. simpl. rewrite <- !app_assoc. simpl.
  eexists. reflexivity.
Qed.

(** C5: after any sequence of writes to slots 0..7 the staging buffer
    holds in slot [i] the value of the most recent write to [i] (and
    what it held before when [i] was not written); a single write to
    [i] always leaves its value there; and the commit step of
    [setAllServos] reads the eight angles just written, whatever was
    pending before. *)
Theorem staging_last_write_wins
    (ws : list (Z * Z)) (w : World) (i : Z) (fuel : nat)
    (aFLP aBLP aBRP aFRP aFLL aBLL aBRL aFRL : Z) :
  0 <= i < NUMBER_OF_SERVOS ->
  (8 <= length (sServoNextPositionArray w))%nat ->
  Forall (fun p => 0 <= fst p < NUMBER_OF_SERVOS) ws ->
  sServoNextPositionArray (stageAll ws w) !! Z.to_nat i
  = match lastWrite i ws with
    | Some v => Some v
    | None => sServoNextPositionArray w !! Z.to_nat i
    end
  /\ (forall v, sServoNextPositionArray (stage i v (stageAll ws w)) !! Z.to_nat i = Some v)
  /\ exists targets rest,
      trace (snd (setAllServos fuel aFLP aBLP aBRP aFRP aFLL aBLL aBRL aFRL
                    (stageAll ws w)))
      = trace w ++ EvSetEaseToForAllServos targets :: rest
      /\ take 8 targets = [aFLP; aFLL; aBLP; aBLL; aBRP; aBRL; aFRP; aFRL].
Proof.
  unfold NUMBER_OF_SERVOS. intros Hi Hlen Hws. repeat split.
  - apply stageAll_lookup; [lia|].
    eapply Forall_impl; [exact Hws|]. simpl. intros p Hp. lia.
  - intros v. rewrite stage_lookup; [rewrite Z.eqb_refl; reflexivity|lia|].
    rewrite stageAll_length. lia.
  - unfold setAllServos. cbv zeta.
    match goal with |- context [synchronizeMoveAllServosAndCheckInputAndWait _ ?x] =>
      destruct (synchronizeMoveAllServosAndCheckInputAndWait_trace fuel x)
        as (rest & Htr) end.
    rewrite Htr. eexists. exists rest. split.
    + f_equal. rewrite <- (stageAll_trace ws w). reflexivity.
    + pose proof (stageAll_length ws w) as Hl. rewrite <- Hl in Hlen.
      destruct (stageAll ws w) as [sv buf tr sp st pe tc so]; simpl in Hlen.
      split_buffer buf Hlen. reflexivity.
Qed.
End Staging.

Lemma restWorld_writes :
  Forall (fun p : Z * Z => 0 <= fst p < NUMBER_OF_SERVOS) [(2, 10); (5, 7); (2, 30)].
Proof. repeat constructor; unfold NUMBER_OF_SERVOS; simpl; lia. Qed.

Lemma slot_2_in_range : 0 <= 2 < NUMBER_OF_SERVOS.
Proof. unfold NUMBER_OF_SERVOS. lia. Qed.

(** Slot 2 is written twice, with 10 and then with 30: it holds 30. *)
Lemma staging_last_write_wins_witness :
  sServoNextPositionArray (stageAll [(2, 10); (5, 7); (2, 30)] restWorld) !! 2%nat
  = Some 30.
Proof.
  exact (proj1 (@staging_last_write_wins specLib [(2, 10); (5, 7); (2, 30)]
                  restWorld 2 0 0 0 0 0 0 0 0 0
                  slot_2_in_range restWorld_buffer restWorld_writes)).
Defined.

(** ** Body height *)

Lemma spec_lift_angle_between (lo hi p : Z) :
  0 <= p <= 100 ->
  Z.min lo hi <= spec_lift_angle lo hi p <= Z.max lo hi.
Proof.
  intros Hp. unfold spec_lift_angle.
  pose proof (Z.quot_rem' (p * (lo - hi)) 100) as Hqr.
  destruct (Z.le_gt_cases 0 (lo - hi)) as [Hd|Hd].
  - pose proof (Z.rem_bound_pos (p * (lo - hi)) 100 ltac:(nia) ltac:(lia)). nia.
  - pose proof (Z.rem_bound_pos (- (p * (lo - hi))) 100 ltac:(nia) ltac:(lia)) as Hr.
    rewrite Z.rem_opp_l' in Hr. nia.
Qed.

Lemma liftDegreeForHeight_linear (lo hi h : Z) :
  is_int lo -> is_int hi -> is_uint8 h ->
  liftDegreeForHeight lo hi h = spec_lift_angle lo hi (Z.min h 100).
Proof.
  unfold is_int, is_uint8, INT_MIN, INT_MAX. intros Hlo Hhi Hh.
  unfold liftDegreeForHeight.
  replace (if Z.ltb 100 h then 100 else h) with (Z.min h 100)
    by (destruct (Z.ltb_spec 100 h); lia).
  set (p := Z.min h 100). assert (Hp : 0 <= p <= 100) by (subst p; lia).
  pose proof (spec_lift_angle_between lo hi p Hp) as Hbetween.
  unfold spec_lift_angle in *.
  assert (Hq : -65535 <= Z.quot (p * (lo - hi)) 100 <= 65535) by lia.
  unfold map_long.
  rewrite (to_long_id (p - 0)) by lia.
  rewrite (to_long_id (lo - hi)) by lia.
  rewrite (to_long_id (100 - 0)) by lia.
  rewrite Z.sub_0_r. change (100 - 0) with 100.
  rewrite (to_long_id (p * (lo - hi))) by nia.
  rewrite (to_long_id (Z.quot (p * (lo - hi)) 100)) by lia.
  rewrite to_long_id by lia.
  rewrite to_int_id by (unfold is_int, INT_MIN, INT_MAX; lia).
  lia.
Qed.

Section Height.
Context `{lib : ServoEasingLib}.
Variables LIFT_MIN_ANGLE LIFT_MAX_ANGLE : Z.
Hypothesis LIFT_MIN_ANGLE_int : is_int LIFT_MIN_ANGLE.
Hypothesis LIFT_MAX_ANGLE_int : is_int LIFT_MAX_ANGLE.

(** C8: for every byte [h], [setLiftServoHeight] eases the given lift
    servo to the angle that the percentage [min h 100] has on the line
    from [LIFT_MAX_ANGLE] at 0 to [LIFT_MIN_ANGLE] at 100; the angle
    lies between the two, is [LIFT_MAX_ANGLE] for [h = 0] and
    [LIFT_MIN_ANGLE] for every [h >= 100]. *)
Theorem setLiftServoHeight_clamps (aLiftServo : ServoEasing) (h : Z) :
  is_uint8 h ->
  setLiftServoHeight LIFT_MIN_ANGLE LIFT_MAX_ANGLE aLiftServo h
  = lib_easeTo (spec_lift_angle LIFT_MIN_ANGLE LIFT_MAX_ANGLE (Z.min h 100)) aLiftServo
  /\ Z.min LIFT_MIN_ANGLE LIFT_MAX_ANGLE
     <= spec_lift_angle LIFT_MIN_ANGLE LIFT_MAX_ANGLE (Z.min h 100)
     <= Z.max LIFT_MIN_ANGLE LIFT_MAX_ANGLE
  /\ (h = 0 ->
      setLiftServoHeight LIFT_MIN_ANGLE LIFT_MAX_ANGLE aLiftServo h
      = lib_easeTo LIFT_MAX_ANGLE aLiftServo)
  /\ (100 <= h ->
      setLiftServoHeight LIFT_MIN_ANGLE LIFT_MAX_ANGLE aLiftServo h
      = lib_easeTo LIFT_MIN_ANGLE aLiftServo).
Proof.
  intros Hh.
  assert (Hset : setLiftServoHeight LIFT_MIN_ANGLE LIFT_MAX_ANGLE aLiftServo h
                 = lib_easeTo (spec_lift_angle LIFT_MIN_ANGLE LIFT_MAX_ANGLE (Z.min h 100))
                     aLiftServo).
  { rewrite <- liftDegreeForHeight_linear by assumption.
    unfold setLiftServoHeight, liftDegreeForHeight. reflexivity. }
  unfold is_uint8 in Hh.
  split; [exact Hset|]. split; [apply spec_lift_angle_between; lia|]. split.
  - intros ->. rewrite Hset. f_equal. unfold spec_lift_angle.
    rewrite Z.min_l by lia. rewrite Z.mul_0_l. rewrite Z.quot_0_l by lia. lia.
  - intros H100. rewrite Hset. f_equal. rewrite Z.min_r by lia.
    unfold spec_lift_angle.
    rewrite Z.mul_comm, Z.quot_mul by lia. lia.
Qed.
End Height.

Lemma is_int_40 : is_int 40.
Proof. unfold is_int, INT_MIN, INT_MAX. lia. Qed.

Lemma is_int_120 : is_int 120.
Proof. unfold is_int, INT_MIN, INT_MAX. lia. Qed.

Lemma is_uint8_255 : is_uint8 255.
Proof. unfold is_uint8. lia. Qed.

Lemma le_100_255 : 100 <= 255.
Proof. lia. Qed.

(** With lift angles from 40 to 120 degrees, a height of 255 percent is
    taken as 100 percent and eases the servo to 40 degrees. *)
Lemma setLiftServoHeight_clamps_witness :
  @setLiftServoHeight specLib 40 120 (servoAt 6 90) 255
  = @lib_easeTo specLib 40 (servoAt 6 90).
Proof.
  exact (proj2 (proj2 (proj2 (@setLiftServoHeight_clamps specLib 40 120
                                is_int_40 is_int_120 (servoAt 6 90) 255
                                is_uint8_255)))
               le_100_255).
Defined.

(** ** The diagnostic reports *)






(** * Further properties of the program *)

(** ** The index transform on all byte inputs *)

Lemma forallb_uint8 (P : Z -> bool) :
  forallb P (seqZ 0 256) = true -> forall z, is_uint8 z -> P z = true.
Proof.
  intros Hall z Hz. rewrite forallb_forall in Hall. apply Hall.
  apply list_elem_of_In. apply elem_of_seqZ. unfold is_uint8 in Hz. lia.
Qed.

Lemma forallb_index (P : Z -> bool) :
  forallb P (seqZ 0 8) = true -> forall z, 0 <= z < NUMBER_OF_SERVOS -> P z = true.
Proof.
  intros Hall z Hz. rewrite forallb_forall in Hall. apply Hall.
  apply list_elem_of_In. apply elem_of_seqZ. unfold NUMBER_OF_SERVOS in Hz. lia.
Qed.

Lemma forallb_bool (P : bool -> bool) :
  P true && P false = true -> forall b, P b = true.
Proof. intros H b. apply andb_prop in H. destruct b; tauto. Qed.

(** X1: whatever bytes are passed as index and direction, also outside
    the four enumerated directions, the transformed index is one of the
    eight slots 0..7. *)
Theorem transformOneServoIndex_in_range (i d : Z) (m : bool) :
  is_uint8 i -> is_uint8 d ->
  0 <= transformOneServoIndex i d m < NUMBER_OF_SERVOS.
Proof.
  intros Hi Hd.
  assert (H : (0 <=? transformOneServoIndex i d m)
              && (transformOneServoIndex i d m <? NUMBER_OF_SERVOS) = true).
  { revert m. apply forallb_bool. revert d Hd. apply forallb_uint8.
    revert i Hi. apply forallb_uint8. vm_compute. reflexivity. }
  apply andb_prop in H. destruct H as [H1 H2].
  apply Z.leb_le in H1. apply Z.ltb_lt in H2. lia.
Qed.

Lemma is_uint8_6 : is_uint8 6.
Proof. unfold is_uint8. lia. Qed.

Lemma is_uint8_3 : is_uint8 3.
Proof. unfold is_uint8. lia. Qed.

Lemma transformOneServoIndex_in_range_witness :
  0 <= transformOneServoIndex 6 3 true < NUMBER_OF_SERVOS.
Proof.
  exact (transformOneServoIndex_in_range 6 3 true is_uint8_6 is_uint8_3).
Defined.

(** X2: the transform keeps the parity of the index for every byte
    index and direction: a pivot index (even) is sent to a pivot slot and
    a lift index (odd) to a lift slot, with or without mirroring. *)
Theorem transformOneServoIndex_parity (i d : Z) (m : bool) :
  is_uint8 i -> is_uint8 d ->
  Z.even (transformOneServoIndex i d m) = Z.even i.
Proof.
  intros Hi Hd.
  apply Bool.eqb_prop. revert m. apply forallb_bool.
  revert d Hd. apply forallb_uint8. revert i Hi. apply forallb_uint8.
  vm_compute. reflexivity.
Qed.

Lemma transformOneServoIndex_parity_witness :
  Z.even (transformOneServoIndex 6 3 true) = Z.even 6.
Proof.
  exact (transformOneServoIndex_parity 6 3 true is_uint8_6 is_uint8_3).
Defined.

(** X3: a leg stays together: for every pivot index of the registry and
    every byte direction, the lift index of the leg is sent to the slot
    one past the slot its pivot index is sent to. *)
Theorem transformOneServoIndex_lift_follows_pivot (i d : Z) (m : bool) :
  0 <= i < NUMBER_OF_SERVOS -> Z.even i = true -> is_uint8 d ->
  transformOneServoIndex (i + LIFT_SERVO_OFFSET) d m
  = transformOneServoIndex i d m + LIFT_SERVO_OFFSET.
Proof.
  intros Hi Hev Hd.
  assert (H : (if Z.even i
               then transformOneServoIndex (i + LIFT_SERVO_OFFSET) d m
                    =? transformOneServoIndex i d m + LIFT_SERVO_OFFSET
               else true) = true).
  { revert m. apply forallb_bool. revert d Hd. apply forallb_uint8.
    revert i Hi Hev. intros i Hi _. revert i Hi. apply forallb_index.
    vm_compute. reflexivity. }
  rewrite Hev in H. apply Z.eqb_eq in H. exact H.
Qed.

Lemma index_4_in_range : 0 <= 4 < NUMBER_OF_SERVOS.
Proof. unfold NUMBER_OF_SERVOS. lia. Qed.

Lemma transformOneServoIndex_lift_follows_pivot_witness :
  transformOneServoIndex (4 + LIFT_SERVO_OFFSET) 3 true
  = transformOneServoIndex 4 3 true + LIFT_SERVO_OFFSET.
Proof.
  exact (transformOneServoIndex_lift_follows_pivot 4 3 true
           index_4_in_range eq_refl is_uint8_3).
Defined.

(** X4: for every byte direction and mirror flag the transform is
    one-to-one on the eight slots: two different indices of the registry
    are never sent to the same slot. *)
Theorem transformOneServoIndex_injective (i j d : Z) (m : bool) :
  0 <= i < NUMBER_OF_SERVOS -> 0 <= j < NUMBER_OF_SERVOS -> is_uint8 d ->
  transformOneServoIndex i d m = transformOneServoIndex j d m ->
  i = j.
Proof.
  intros Hi Hj Hd.
  assert (H : (if transformOneServoIndex i d m =? transformOneServoIndex j d m
               then i =? j else true) = true).
  { revert m. apply forallb_bool. revert d Hd. apply forallb_uint8.
    revert j Hj. apply forallb_index. revert i Hi. apply forallb_index.
    vm_compute. reflexivity. }
  intros Heq. rewrite Heq, Z.eqb_refl in H. apply Z.eqb_eq in H. exact H.
Qed.

Lemma transformOneServoIndex_injective_witness : 4 = 4.
Proof.
  exact (transformOneServoIndex_injective 4 4 3 true
           index_4_in_range index_4_in_range is_uint8_3 eq_refl).
Defined.

(** X5: a direction byte outside the four enumerated values is not
    rejected: only its two low bits count, so it acts as the direction
    [d mod 4]. *)
Theorem transformOneServoIndex_direction_wraps (i d : Z) (m : bool) :
  is_uint8 i -> is_uint8 d ->
  transformOneServoIndex i d m = transformOneServoIndex i (d mod 4) m.
Proof.
  intros Hi Hd. apply Z.eqb_eq.
  revert m. apply forallb_bool. revert d Hd. apply forallb_uint8.
  revert i Hi. apply forallb_uint8. vm_compute. reflexivity.
Qed.

Lemma is_uint8_7 : is_uint8 7.
Proof. unfold is_uint8. lia. Qed.

(** Direction byte 7 acts as Right (3). *)
Lemma transformOneServoIndex_direction_wraps_witness :
  transformOneServoIndex 6 7 true = transformOneServoIndex 6 (7 mod 4) true.
Proof.
  exact (transformOneServoIndex_direction_wraps 6 7 true is_uint8_6 is_uint8_7).
Defined.

(** X6: unmirrored transforms compose as rotations: transforming by one
    direction and then by another is transforming by the sum of the two
    direction values modulo 4; in particular Backward twice, and Left
    followed by Right, give every slot back. *)
Theorem transformOneServoIndex_rotations_compose (i : Z) (d1 d2 : Direction) :
  0 <= i < NUMBER_OF_SERVOS ->
  transformOneServoIndex
    (transformOneServoIndex i (direction_value d1) false) (direction_value d2) false
  = transformOneServoIndex i ((direction_value d1 + direction_value d2) mod 4) false
  /\ transformOneServoIndex
       (transformOneServoIndex i MOVE_DIRECTION_BACKWARD false)
       MOVE_DIRECTION_BACKWARD false = i
  /\ transformOneServoIndex
       (transformOneServoIndex i MOVE_DIRECTION_LEFT false)
       MOVE_DIRECTION_RIGHT false = i.
Proof.
  intros Hi.
  assert (H : (transformOneServoIndex
                 (transformOneServoIndex i (direction_value d1) false)
                 (direction_value d2) false
               =? transformOneServoIndex i
                    ((direction_value d1 + direction_value d2) mod 4) false)
              && (transformOneServoIndex
                    (transformOneServoIndex i MOVE_DIRECTION_BACKWARD false)
                    MOVE_DIRECTION_BACKWARD false =? i)
              && (transformOneServoIndex
                    (transformOneServoIndex i MOVE_DIRECTION_LEFT false)
                    MOVE_DIRECTION_RIGHT false =? i) = true).
  { revert i Hi. apply forallb_index. destruct d1, d2; vm_compute; reflexivity. }
  apply andb_prop in H. destruct H as [H H3]. apply andb_prop in H.
  destruct H as [H1 H2].
  apply Z.eqb_eq in H1. apply Z.eqb_eq in H2. apply Z.eqb_eq in H3. auto.
Qed.

Lemma transformOneServoIndex_rotations_compose_witness :
  transformOneServoIndex
    (transformOneServoIndex 4 MOVE_DIRECTION_LEFT false) MOVE_DIRECTION_RIGHT false
  = 4.
Proof.
  exact (proj2 (proj2 (transformOneServoIndex_rotations_compose 4 Left Right
                         index_4_in_range))).
Defined.

(** X7: for every byte direction the mirrored transform undoes itself on
    the eight slots, and its result is the unmirrored result XORed with
    the mask of [getMirrorXorMask]. *)
Theorem transformOneServoIndex_mirror_involutive (i d : Z) :
  0 <= i < NUMBER_OF_SERVOS -> is_uint8 d ->
  transformOneServoIndex (transformOneServoIndex i d true) d true = i
  /\ transformOneServoIndex i d true
     = Z.lxor (transformOneServoIndex i d false) (getMirrorXorMask d).
Proof.
  intros Hi Hd.
  assert (H : (transformOneServoIndex (transformOneServoIndex i d true) d true =? i)
              && (transformOneServoIndex i d true
                  =? Z.lxor (transformOneServoIndex i d false) (getMirrorXorMask d))
              = true).
  { revert d Hd. apply forallb_uint8. revert i Hi. apply forallb_index.
    vm_compute. reflexivity. }
  apply andb_prop in H. destruct H as [H1 H2].
  apply Z.eqb_eq in H1. apply Z.eqb_eq in H2. auto.
Qed.

Lemma transformOneServoIndex_mirror_involutive_witness :
  transformOneServoIndex (transformOneServoIndex 4 3 true) 3 true = 4.
Proof.
  exact (proj1 (transformOneServoIndex_mirror_involutive 4 3
                  index_4_in_range is_uint8_3)).
Defined.

(** ** The transform as a permutation of the arguments of [setAllServos] *)

Lemma pivot_index_in_range (l : Leg) : 0 <= pivot_index l < NUMBER_OF_SERVOS.
Proof.
  destruct l;
    unfold pivot_index, NUMBER_OF_SERVOS, FRONT_LEFT_PIVOT, BACK_LEFT_PIVOT,
      BACK_RIGHT_PIVOT, FRONT_RIGHT_PIVOT; lia.
Qed.

Lemma effectivePivotServoIndex_wraps (c d : Z) (m : bool) :
  0 <= c < NUMBER_OF_SERVOS -> is_uint8 d ->
  effectivePivotServoIndex c d m = effectivePivotServoIndex c (d mod 4) m.
Proof.
  intros Hc Hd. apply Z.eqb_eq.
  revert m. apply forallb_bool. revert d Hd. apply forallb_uint8.
  revert c Hc. apply forallb_index. vm_compute. reflexivity.
Qed.

Section Permuted.
Context `{lib : ServoEasingLib}.

Lemma transformAndSetAllServos_unfold fuel aFLP aBLP aBRP aFRP aFLL aBLL aBRL aFRL
      aDirection doMirror aDoMove w :
  transformAndSetAllServos fuel aFLP aBLP aBRP aFRP aFLL aBLL aBRL aFRL
    aDirection doMirror aDoMove w
  = let w := stage (effectivePivotServoIndex FRONT_LEFT_PIVOT aDirection doMirror)
               (invertIf doMirror aFLP) w in
    let w := stage (effectivePivotServoIndex FRONT_LEFT_PIVOT aDirection doMirror
                    + LIFT_SERVO_OFFSET) aFLL w in
    let w := stage (effectivePivotServoIndex BACK_LEFT_PIVOT aDirection doMirror)
               (invertIf doMirror aBLP) w in
    let w := stage (effectivePivotServoIndex BACK_LEFT_PIVOT aDirection doMirror
                    + LIFT_SERVO_OFFSET) aBLL w in
    let w := stage (effectivePivotServoIndex BACK_RIGHT_PIVOT aDirection doMirror)
               (invertIf doMirror aBRP) w in
    let w := stage (effectivePivotServoIndex BACK_RIGHT_PIVOT aDirection doMirror
                    + LIFT_SERVO_OFFSET) aBRL w in
    let w := stage (effectivePivotServoIndex FRONT_RIGHT_PIVOT aDirection doMirror)
               (invertIf doMirror aFRP) w in
    let w := stage (effectivePivotServoIndex FRONT_RIGHT_PIVOT aDirection doMirror
                    + LIFT_SERVO_OFFSET) aFRL w in
    if aDoMove then synchronizeMoveAllServosAndCheckInputAndWait fuel w
    else (Completed, w).
Proof.
  unfold transformAndSetAllServos, effectivePivotServoIndex.
  destruct doMirror; reflexivity.
Qed.

(** X8: with the move started, [transformAndSetAllServos] is
    [setAllServos] on permuted arguments: each physical leg gets the
    pivot angle (inverted when mirroring) and the lift angle of the
    canonical leg the transform sends to it. *)
Theorem transformAndSetAllServos_as_setAllServos
    (fuel : nat) (pivot lift : Leg -> Z) (d : Direction) (m : bool) (w : World) :
  (8 <= length (sServoNextPositionArray w))%nat ->
  transformAndSetAllServos fuel
    (pivot FrontLeft) (pivot BackLeft) (pivot BackRight) (pivot FrontRight)
    (lift FrontLeft) (lift BackLeft) (lift BackRight) (lift FrontRight)
    (direction_value d) m true w
  = setAllServos fuel
      (invertIf m (pivot (sourceLeg d m FrontLeft)))
      (invertIf m (pivot (sourceLeg d m BackLeft)))
      (invertIf m (pivot (sourceLeg d m BackRight)))
      (invertIf m (pivot (sourceLeg d m FrontRight)))
      (lift (sourceLeg d m FrontLeft)) (lift (sourceLeg d m BackLeft))
      (lift (sourceLeg d m BackRight)) (lift (sourceLeg d m FrontRight)) w.
Proof.
  intros Hlen. rewrite transformAndSetAllServos_unfold.
  unfold setAllServos. cbv zeta. f_equal.
  destruct w as [sv buf tr sp st pe tc so]; simpl in Hlen.
  split_buffer buf Hlen.
  destruct d, m; reflexivity.
Qed.

(** X9: a direction byte outside the four enumerated values makes
    [transformAndSetAllServos] do exactly what it does for the direction
    [d mod 4]. *)
Theorem transformAndSetAllServos_direction_wraps
    (fuel : nat) (aFLP aBLP aBRP aFRP aFLL aBLL aBRL aFRL d : Z)
    (m aDoMove : bool) (w : World) :
  is_uint8 d ->
  transformAndSetAllServos fuel aFLP aBLP aBRP aFRP aFLL aBLL aBRL aFRL
    d m aDoMove w
  = transformAndSetAllServos fuel aFLP aBLP aBRP aFRP aFLL aBLL aBRL aFRL
      (d mod 4) m aDoMove w.
Proof.
  intros Hd. rewrite !transformAndSetAllServos_unfold.
  rewrite (effectivePivotServoIndex_wraps FRONT_LEFT_PIVOT d m)
    by (exact (pivot_index_in_range FrontLeft) || exact Hd).
  rewrite (effectivePivotServoIndex_wraps BACK_LEFT_PIVOT d m)
    by (exact (pivot_index_in_range BackLeft) || exact Hd).
  rewrite (effectivePivotServoIndex_wraps BACK_RIGHT_PIVOT d m)
    by (exact (pivot_index_in_range BackRight) || exact Hd).
  rewrite (effectivePivotServoIndex_wraps FRONT_RIGHT_PIVOT d m)
    by (exact (pivot_index_in_range FrontRight) || exact Hd).
  reflexivity.
Qed.
End Permuted.

(** Backward, unmirrored: the call is [setAllServos] with front and back,
    left and right exchanged. *)
Lemma transformAndSetAllServos_as_setAllServos_witness :
  @transformAndSetAllServos specLib 3 180 1 135 30 111 0 0 0
     MOVE_DIRECTION_BACKWARD false true restWorld
  = @setAllServos specLib 3 135 30 180 1 0 0 111 0 restWorld.
Proof.
  exact (@transformAndSetAllServos_as_setAllServos specLib 3 testPivot testLift
           Backward false restWorld restWorld_buffer).
Defined.

(** Direction byte 7 acts as Right. *)
Lemma transformAndSetAllServos_direction_wraps_witness :
  @transformAndSetAllServos specLib 3 180 1 135 30 111 0 0 0 7 true true restWorld
  = @transformAndSetAllServos specLib 3 180 1 135 30 111 0 0 0 (7 mod 4) true true
      restWorld.
Proof.
  exact (@transformAndSetAllServos_direction_wraps specLib 3 180 1 135 30 111 0 0 0 7
           true true restWorld is_uint8_7).
Defined.

Section PivotPermuted.
Context `{lib : ServoEasingLib}.

(** X10: with the move started, [transformAndSetPivotServos] is
    [setPivotServos] on permuted arguments: each physical leg gets the
    pivot angle (inverted when mirroring) of the canonical leg the
    transform sends to it. *)
Theorem transformAndSetPivotServos_as_setPivotServos
    (fuel : nat) (pivot : Leg -> Z) (d : Direction) (m : bool) (w : World) :
  (8 <= length (sServoNextPositionArray w))%nat ->
  transformAndSetPivotServos fuel
    (pivot FrontLeft) (pivot BackLeft) (pivot BackRight) (pivot FrontRight)
    (direction_value d) m true w
  = setPivotServos fuel
      (invertIf m (pivot (sourceLeg d m FrontLeft)))
      (invertIf m (pivot (sourceLeg d m BackLeft)))
      (invertIf m (pivot (sourceLeg d m BackRight)))
      (invertIf m (pivot (sourceLeg d m FrontRight))) w.
Proof.
  intros Hlen. unfold transformAndSetPivotServos, setPivotServos. cbv zeta. f_equal.
  destruct w as [sv buf tr sp st pe tc so]; simpl in Hlen.
  split_buffer buf Hlen.
  destruct d, m; reflexivity.
Qed.

(** X11: [setPivotServos] followed by [setLiftServos] with four angles
    leaves the staging buffer as [setAllServos] with the eight angles
    does, whatever the two moves in between did. *)
Theorem setPivotServos_then_setLiftServos
    (fuel1 fuel2 fuel : nat) (aFLP aBLP aBRP aFRP aFLL aBLL aBRL aFRL : Z)
    (w : World) :
  sServoNextPositionArray
    (snd (setLiftServos4 fuel2 aFLL aBLL aBRL aFRL
            (snd (setPivotServos fuel1 aFLP aBLP aBRP aFRP w))))
  = sServoNextPositionArray
      (snd (setAllServos fuel aFLP aBLP aBRP aFRP aFLL aBLL aBRL aFRL w)).
Proof.
  unfold setLiftServos4, setPivotServos, setAllServos. cbv zeta.
  rewrite !synchronizeMoveAllServosAndCheckInputAndWait_buffer.
  unfold stage. simpl.
  rewrite !synchronizeMoveAllServosAndCheckInputAndWait_buffer.
  reflexivity.
Qed.
End PivotPermuted.

(** Mirrored Forward: left and right legs exchange their inverted pivot
    angles. *)
Lemma transformAndSetPivotServos_as_setPivotServos_witness :
  @transformAndSetPivotServos specLib 3 180 1 135 30 MOVE_DIRECTION_FORWARD true true
     restWorld
  = @setPivotServos specLib 3 150 45 179 0 restWorld.
Proof.
  exact (@transformAndSetPivotServos_as_setPivotServos specLib 3 testPivot
           Forward true restWorld restWorld_buffer).
Defined.

(** ** Further properties of the motion loops *)





Section MoreLoops.
Context `{lib : ServoEasingLib}.


(** X13: a move asked for while a stop request is standing still commits
    the staged targets to the servos, but is canceled at its first poll:
    no tick is waited and no servo is advanced. *)
Theorem synchronizeMove_with_standing_stop (fuel : nat) (w : World) :
  sRequestToStopReceived w = true ->
  let started :=
    synchronizeAllServosAndStartInterrupt false (setEaseToForAllServos w) in
  fst (synchronizeMoveAllServosAndCheckInputAndWait (S fuel) w) = Canceled
  /\ sServoArray (snd (synchronizeMoveAllServosAndCheckInputAndWait (S fuel) w))
     = sServoArray started
  /\ trace (snd (synchronizeMoveAllServosAndCheckInputAndWait (S fuel) w))
     = trace w ++ [EvSetEaseToForAllServos (sServoNextPositionArray w);
                   EvSynchronizeAllServos; EvCheckIRInput; EvStopCheck true].
Proof.
  intros Hstop started. subst started.
  unfold synchronizeMoveAllServosAndCheckInputAndWait. cbv zeta.
  rewrite updateAndCheckInputAndWaitForAllServosToStop_pollLoop.
  rewrite pollLoop_cancel_now by (simpl; rewrite Hstop; reflexivity).
  simpl. rewrite <- !app_assoc. repeat split.
Qed.

Lemma pollLoop_frame (advance : World -> option (World * bool)) :
  (forall w w' b, advance w = Some (w', b) ->
     sServoNextPositionArray w' = sServoNextPositionArray w
     /\ sServoTrimAngles w' = sServoTrimAngles w
     /\ sServoSpeed w' = sServoSpeed w
     /\ serialOut w' = serialOut w) ->
  forall n w,
    sServoNextPositionArray (snd (pollLoop advance n w)) = sServoNextPositionArray w
    /\ sServoTrimAngles (snd (pollLoop advance n w)) = sServoTrimAngles w
    /\ sServoSpeed (snd (pollLoop advance n w)) = sServoSpeed w
    /\ serialOut (snd (pollLoop advance n w)) = serialOut w.
Proof.
  intros Hadv n. induction n as [|n IH]; intros w0; simpl; [auto|].
  destruct (sRequestToStopReceived w0 || _)%bool; simpl; [auto|].
  match goal with |- context [advance ?x] =>
    destruct (advance x) as [[w1 done]|] eqn:Ha end; simpl; [|auto].
  apply Hadv in Ha. simpl in Ha. destruct Ha as (H1 & H2 & H3 & H4).
  destruct done; simpl.
  - auto.
  - destruct (IH w1) as (I1 & I2 & I3 & I4).
    rewrite I1, I2, I3, I4. auto.
Qed.

Lemma synchronizeMoveAllServosAndCheckInputAndWait_frame fuel w :
  sServoNextPositionArray (snd (synchronizeMoveAllServosAndCheckInputAndWait fuel w))
  = sServoNextPositionArray w
  /\ sServoTrimAngles (snd (synchronizeMoveAllServosAndCheckInputAndWait fuel w))
     = sServoTrimAngles w
  /\ sServoSpeed (snd (synchronizeMoveAllServosAndCheckInputAndWait fuel w))
     = sServoSpeed w
  /\ serialOut (snd (synchronizeMoveAllServosAndCheckInputAndWait fuel w))
     = serialOut w.
Proof.
  unfold synchronizeMoveAllServosAndCheckInputAndWait.
  rewrite updateAndCheckInputAndWaitForAllServosToStop_pollLoop.
  match goal with |- context [pollLoop _ _ ?x] =>
    destruct (pollLoop_frame advanceAll) with (n := fuel) (w := x)
      as (I1 & I2 & I3 & I4) end.
  - intros w0 w1 b. unfold advanceAll, updateAllServos.
    intros [= <- <-]. simpl. auto.
  - rewrite I1, I2, I3, I4. simpl. auto.
Qed.

Lemma moveOneServoAndCheckInputAndWait_frame fuel idx deg speed w :
  sServoNextPositionArray (snd (moveOneServoAndCheckInputAndWait fuel idx deg speed w))
  = sServoNextPositionArray w
  /\ sServoTrimAngles (snd (moveOneServoAndCheckInputAndWait fuel idx deg speed w))
     = sServoTrimAngles w
  /\ sServoSpeed (snd (moveOneServoAndCheckInputAndWait fuel idx deg speed w))
     = sServoSpeed w
  /\ serialOut (snd (moveOneServoAndCheckInputAndWait fuel idx deg speed w))
     = serialOut w.
Proof.
  unfold moveOneServoAndCheckInputAndWait, servoStartEaseTo.
  destruct (sServoArray w !! Z.to_nat idx) as [s|]; simpl; [|auto].
  rewrite moveOneServoAndCheckInputAndWait_loop_pollLoop.
  match goal with |- context [pollLoop _ _ ?x] =>
    destruct (pollLoop_frame (servoUpdate idx)) with (n := fuel) (w := x)
      as (I1 & I2 & I3 & I4) end.
  - intros w0 w1 b. unfold servoUpdate.
    destruct (sServoArray w0 !! Z.to_nat idx); [|discriminate].
    intros [= <- <-]. simpl. auto.
  - rewrite I1, I2, I3, I4. simpl. auto.
Qed.

(** X14: the blocking moves only touch the servos, the remote and the
    call log: whatever the fuel and however they end, they leave the
    staging buffer, the trim table, the speed and the serial output as
    they were. *)
Theorem moves_frame (fuel : nat) (idx deg speed : Z) (w : World) :
  (let w' := snd (synchronizeMoveAllServosAndCheckInputAndWait fuel w) in
   sServoNextPositionArray w' = sServoNextPositionArray w
   /\ sServoTrimAngles w' = sServoTrimAngles w
   /\ sServoSpeed w' = sServoSpeed w
   /\ serialOut w' = serialOut w)
  /\ (let w' := snd (moveOneServoAndCheckInputAndWait fuel idx deg speed w) in
      sServoNextPositionArray w' = sServoNextPositionArray w
      /\ sServoTrimAngles w' = sServoTrimAngles w
      /\ sServoSpeed w' = sServoSpeed w
      /\ serialOut w' = serialOut w).
Proof.
  split; cbv zeta.
  - apply synchronizeMoveAllServosAndCheckInputAndWait_frame.
  - apply moveOneServoAndCheckInputAndWait_frame.
Qed.
End MoreLoops.


(** A world in which a stop request is standing. *)
Lemma synchronizeMove_with_standing_stop_witness :
  fst (@synchronizeMoveAllServosAndCheckInputAndWait specLib 1
         (setStopAndPending true [] restWorld)) = Canceled.
Proof.
  exact (proj1 (@synchronizeMove_with_standing_stop specLib 0
                  (setStopAndPending true [] restWorld) eq_refl)).
Defined.

(** ** Body height, continued *)

(** X15: [setLiftServoHeight] eases the servo to the angle
    [liftDegreeForHeight] gives, and when [LIFT_MIN_ANGLE] is not above
    [LIFT_MAX_ANGLE] a higher height percentage never gives a larger
    angle. *)
Theorem setLiftServoHeight_antitone `{lib : ServoEasingLib}
    (LIFT_MIN_ANGLE LIFT_MAX_ANGLE h1 h2 : Z) (aLiftServo : ServoEasing) :
  is_int LIFT_MIN_ANGLE -> is_int LIFT_MAX_ANGLE ->
  LIFT_MIN_ANGLE <= LIFT_MAX_ANGLE ->
  is_uint8 h1 -> is_uint8 h2 -> h1 <= h2 ->
  setLiftServoHeight LIFT_MIN_ANGLE LIFT_MAX_ANGLE aLiftServo h1
  = lib_easeTo (liftDegreeForHeight LIFT_MIN_ANGLE LIFT_MAX_ANGLE h1) aLiftServo
  /\ setLiftServoHeight LIFT_MIN_ANGLE LIFT_MAX_ANGLE aLiftServo h2
     = lib_easeTo (liftDegreeForHeight LIFT_MIN_ANGLE LIFT_MAX_ANGLE h2) aLiftServo
  /\ liftDegreeForHeight LIFT_MIN_ANGLE LIFT_MAX_ANGLE h2
     <= liftDegreeForHeight LIFT_MIN_ANGLE LIFT_MAX_ANGLE h1.
Proof.
  intros Hlo Hhi Hle H1 H2 H12.
  split; [unfold setLiftServoHeight, liftDegreeForHeight; reflexivity|].
  split; [unfold setLiftServoHeight, liftDegreeForHeight; reflexivity|].
  rewrite !liftDegreeForHeight_linear by assumption.
  unfold spec_lift_angle, is_uint8 in *.
  apply Z.add_le_mono_l. apply Z.quot_le_mono; [lia|].
  apply Z.mul_le_mono_nonpos_r; lia.
Qed.

Lemma is_uint8_50 : is_uint8 50.
Proof. unfold is_uint8. lia. Qed.

Lemma le_40_120 : 40 <= 120.
Proof. lia. Qed.

Lemma le_50_255 : 50 <= 255.
Proof. lia. Qed.

Lemma setLiftServoHeight_antitone_witness :
  liftDegreeForHeight 40 120 255 <= liftDegreeForHeight 40 120 50.
Proof.
  exact (proj2 (proj2 (@setLiftServoHeight_antitone specLib 40 120 50 255
                         (servoAt 6 90) is_int_40 is_int_120 le_40_120
                         is_uint8_50 is_uint8_255 le_50_255))).
Defined.

(** ** Easing types and direct writes *)

Ltac split_servos sv i :=
  do 8 (destruct sv as [|? sv];
        [do 8 (destruct i as [|i]; [reflexivity|]); reflexivity|]);
  do 8 (destruct i as [|i]; [reflexivity|]);
  simpl; destruct (sv !! i); reflexivity.

Lemma setEasingTypeToLinear_servos (w : World) (i : nat) :
  sServoArray (setEasingTypeToLinear w) !! i
  = (fun s => if (i <? 8)%nat then setEasingType EASE_LINEAR s else s)
      <$> sServoArray w !! i.
Proof.
  unfold setEasingTypeToLinear.
  change (seqZ 0 NUMBER_OF_SERVOS) with [0; 1; 2; 3; 4; 5; 6; 7].
  destruct w as [sv buf tr sp st pe tc so]. simpl.
  split_servos sv i.
Qed.

Lemma setEasingTypeForMoving_run (n : nat) (w : World) :
  exists w',
    setEasingTypeForMoving (5 + n) w = Some w'
    /\ (forall i : nat,
           sServoArray w' !! i
           = (fun s => if (i <? 8)%nat
                       then setEasingType (if Nat.even i then EASE_LINEAR
                                           else EASE_QUADRATIC_BOUNCING) s
                       else s)
               <$> sServoArray w !! i)
    /\ sServoNextPositionArray w' = sServoNextPositionArray w
    /\ sServoTrimAngles w' = sServoTrimAngles w
    /\ trace w' = trace w.
Proof.
  eexists. split; [reflexivity|]. split; [|repeat split].
  intros i. destruct w as [sv buf tr sp st pe tc so]. simpl.
  split_servos sv i.
Qed.

(** X16: given fuel for its four passes and the closing test,
    [setEasingTypeForMoving] returns, having set every pivot servo (even
    index below 8) to linear easing and every lift servo (odd index) to
    the bouncing quadratic easing, with nothing else of a servo and
    nothing of the staging buffer, the trim table or the call log
    changed; with less fuel it does not return. *)
Theorem setEasingTypeForMoving_result (fuel : nat) (w : World) :
  (5 <= fuel)%nat ->
  (exists w',
      setEasingTypeForMoving fuel w = Some w'
      /\ (forall i : nat,
             sServoArray w' !! i
             = (fun s => if (i <? 8)%nat
                         then setEasingType (if Nat.even i then EASE_LINEAR
                                             else EASE_QUADRATIC_BOUNCING) s
                         else s)
                 <$> sServoArray w !! i)
      /\ sServoNextPositionArray w' = sServoNextPositionArray w
      /\ sServoTrimAngles w' = sServoTrimAngles w
      /\ trace w' = trace w)
  /\ setEasingTypeForMoving 4 w = None.
Proof.
  intros Hfuel. split; [|reflexivity].
  replace fuel with (5 + (fuel - 5))%nat by lia.
  apply setEasingTypeForMoving_run.
Qed.

(** X17: [setEasingTypeToLinear] sets each of the eight servos to linear
    easing and changes nothing else of it, so after
    [setEasingTypeForMoving] it leaves the servos as it leaves them
    without it. *)
Theorem setEasingTypeToLinear_overrides (fuel : nat) (w : World) :
  (5 <= fuel)%nat ->
  (forall i : nat,
      sServoArray (setEasingTypeToLinear w) !! i
      = (fun s => if (i <? 8)%nat then setEasingType EASE_LINEAR s else s)
          <$> sServoArray w !! i)
  /\ exists w',
      setEasingTypeForMoving fuel w = Some w'
      /\ sServoArray (setEasingTypeToLinear w') = sServoArray (setEasingTypeToLinear w).
Proof.
  intros Hfuel. split; [apply setEasingTypeToLinear_servos|].
  replace fuel with (5 + (fuel - 5))%nat by lia.
  destruct (setEasingTypeForMoving_run (fuel - 5) w) as (w' & Hrun & Hsv & _).
  exists w'. split; [exact Hrun|].
  apply list_eq. intros i.
  rewrite !setEasingTypeToLinear_servos, Hsv.
  destruct (sServoArray w !! i) as [s|]; [|reflexivity]. simpl.
  destruct (i <? 8)%nat; reflexivity.
Qed.

Lemma le_5_5 : (5 <= 5)%nat.
Proof. lia. Qed.

Lemma setEasingTypeForMoving_result_witness :
  setEasingTypeForMoving 4 restWorld = None.
Proof.
  exact (proj2 (setEasingTypeForMoving_result 5 restWorld le_5_5)).
Defined.

Lemma setEasingTypeToLinear_overrides_witness :
  sServoArray (setEasingTypeToLinear restWorld) !! 1%nat
  = Some (setEasingType EASE_LINEAR (servoAt 6 90)).
Proof.
  exact (proj1 (setEasingTypeToLinear_overrides 5 restWorld le_5_5) 1%nat).
Defined.

Section DirectWrite.
Context `{wlib : ServoWriteLib}.

Lemma setLiftServosToBodyHeight_loop_run (n : nat) (h : Z) (w : World) :
  exists w',
    setLiftServosToBodyHeight_loop (5 + n) LIFT_SERVO_OFFSET h w = Some w'
    /\ (forall i : nat,
           sServoArray w' !! i
           = (fun s => if (i <? 8)%nat && Nat.odd i then lib_write h s else s)
               <$> sServoArray w !! i)
    /\ sServoNextPositionArray w' = sServoNextPositionArray w
    /\ trace w' = trace w.
Proof.
  eexists. split; [reflexivity|]. split; [|split; reflexivity].
  intros i. destruct w as [sv buf tr sp st pe tc so]. simpl.
  split_servos sv i.
Qed.

(** X18: given fuel for its four passes and the closing test,
    [setLiftServosToBodyHeight] returns, having written the body height
    angle directly to the four lift servos (odd index below 8); the pivot
    servos, the body height and the staging buffer are as before, so the
    buffer still holds the lift angles staged earlier. *)
Theorem setLiftServosToBodyHeight_result (fuel : nat) (r : Robot) :
  (5 <= fuel)%nat ->
  exists r',
    setLiftServosToBodyHeight fuel r = Some r'
    /\ (forall i : nat,
           sServoArray (world r') !! i
           = (fun s => if (i <? 8)%nat && Nat.odd i
                       then lib_write (sBodyHeightAngle r) s else s)
               <$> sServoArray (world r) !! i)
    /\ sServoNextPositionArray (world r') = sServoNextPositionArray (world r)
    /\ sBodyHeightAngle r' = sBodyHeightAngle r
    /\ trace (world r') = trace (world r).
Proof.
  intros Hfuel. replace fuel with (5 + (fuel - 5))%nat by lia.
  destruct (setLiftServosToBodyHeight_loop_run (fuel - 5) (sBodyHeightAngle r) (world r))
    as (w' & Hrun & Hsv & Hbuf & Htr).
  unfold setLiftServosToBodyHeight. rewrite Hrun.
  eexists. split; [reflexivity|]. simpl. auto.
Qed.
End DirectWrite.

Lemma setLiftServosToBodyHeight_result_witness :
  exists r',
    @setLiftServosToBodyHeight specWriteLib 5 savedRobot = Some r'
    /\ (forall i : nat,
           sServoArray (world r') !! i
           = (fun s => if (i <? 8)%nat && Nat.odd i
                       then @lib_write specWriteLib (sBodyHeightAngle savedRobot) s
                       else s)
               <$> sServoArray (world savedRobot) !! i)
    /\ sServoNextPositionArray (world r') = sServoNextPositionArray (world savedRobot)
    /\ sBodyHeightAngle r' = sBodyHeightAngle savedRobot
    /\ trace (world r') = trace (world savedRobot).
Proof.
  exact (@setLiftServosToBodyHeight_result specWriteLib 5 savedRobot le_5_5).
Defined.

(** ** The trim table and the EEPROM *)

Lemma printTrimAngles_servos (w : World) (i : nat) :
  sServoArray (printTrimAngles w) !! i
  = (fun s => if (i <? 8)%nat then setTrim (tableTrim w i) s else s)
      <$> sServoArray w !! i.
Proof.
  unfold printTrimAngles, tableTrim.
  change (seqZ 0 NUMBER_OF_SERVOS) with [0; 1; 2; 3; 4; 5; 6; 7].
  destruct w as [sv buf tr sp st pe tc so]. simpl.
  split_servos sv i.
Qed.

Lemma printTrimAngles_table (w : World) :
  sServoTrimAngles (printTrimAngles w) = sServoTrimAngles w.
Proof.
  unfold printTrimAngles.
  change (seqZ 0 NUMBER_OF_SERVOS) with [0; 1; 2; 3; 4; 5; 6; 7]. reflexivity.
Qed.

Lemma block_copy_full (src dst : list Z) :
  length src = 8%nat -> length dst = 8%nat ->
  block_copy NUMBER_OF_SERVOS src dst = src.
Proof.
  intros Hs Hd. unfold block_copy, NUMBER_OF_SERVOS.
  change (Z.to_nat 8) with 8%nat.
  rewrite firstn_all2 by lia. rewrite skipn_all2 by lia. apply app_nil_r.
Qed.

Lemma eepromWriteServoTrim_eeprom (r : Robot) :
  sServoTrimAnglesEEPROM (eepromWriteServoTrim r)
  = block_copy NUMBER_OF_SERVOS (sServoTrimAngles (world r)) (sServoTrimAnglesEEPROM r).
Proof. reflexivity. Qed.

Lemma eepromWriteServoTrim_world (r : Robot) :
  world (eepromWriteServoTrim r) = printTrimAngles (world r).
Proof. reflexivity. Qed.

Lemma eepromReadAndSetServoTrim_world (r : Robot) :
  world (eepromReadAndSetServoTrim r)
  = printTrimAngles
      (setTrimAngles (block_copy NUMBER_OF_SERVOS (sServoTrimAnglesEEPROM r)
                        (sServoTrimAngles (world r)))
         (serialPrint (STextLn "eepromReadAndSetServoTrim()") (world r))).
Proof. reflexivity. Qed.

Lemma eepromReadAndSetServoTrim_eeprom (r : Robot) :
  sServoTrimAnglesEEPROM (eepromReadAndSetServoTrim r) = sServoTrimAnglesEEPROM r.
Proof. reflexivity. Qed.

Lemma robot_eeprom (w : World) (h : Z) (e : list Z) :
  sServoTrimAnglesEEPROM (mkRobot w h e) = e.
Proof. reflexivity. Qed.

Lemma robot_world (w : World) (h : Z) (e : list Z) :
  world (mkRobot w h e) = w.
Proof. reflexivity. Qed.

Lemma setTrimAngles_table (v : list Z) (w : World) :
  sServoTrimAngles (setTrimAngles v w) = v.
Proof. reflexivity. Qed.

Lemma setTrimAngles_servos (v : list Z) (i : SerialItem) (w : World) :
  sServoArray (setTrimAngles v (serialPrint i w)) = sServoArray w.
Proof. reflexivity. Qed.

(** X19: [eepromReadAndSetServoTrim] copies the eight bytes of the EEPROM
    table into the working table as they are, none is replaced by 0, sets
    the trim of each of the eight servos to its byte, and leaves the
    EEPROM table alone. *)
Theorem eepromReadAndSetServoTrim_loads (r : Robot) :
  length (sServoTrimAnglesEEPROM r) = 8%nat ->
  length (sServoTrimAngles (world r)) = 8%nat ->
  sServoTrimAngles (world (eepromReadAndSetServoTrim r)) = sServoTrimAnglesEEPROM r
  /\ sServoTrimAnglesEEPROM (eepromReadAndSetServoTrim r) = sServoTrimAnglesEEPROM r
  /\ (forall i : nat,
         sServoArray (world (eepromReadAndSetServoTrim r)) !! i
         = (fun s => if (i <? 8)%nat
                     then setTrim (default 0 (sServoTrimAnglesEEPROM r !! i)) s
                     else s)
             <$> sServoArray (world r) !! i).
Proof.
  intros He Hr.
  rewrite eepromReadAndSetServoTrim_world, eepromReadAndSetServoTrim_eeprom.
  split; [|split; [reflexivity|]].
  - rewrite printTrimAngles_table, setTrimAngles_table.
    apply block_copy_full; assumption.
  - intros i. rewrite printTrimAngles_servos. unfold tableTrim.
    rewrite setTrimAngles_table, setTrimAngles_servos.
    rewrite block_copy_full by assumption. reflexivity.
Qed.

(** X20: the trim table survives a save and a load: after
    [eepromWriteServoTrim], whatever the working table is overwritten
    with, [eepromReadAndSetServoTrim] brings back the table that was
    saved. *)
Theorem eeprom_write_read_round_trip (r : Robot) (drift : list Z) :
  length (sServoTrimAnglesEEPROM r) = 8%nat ->
  length (sServoTrimAngles (world r)) = 8%nat ->
  length drift = 8%nat ->
  sServoTrimAnglesEEPROM (eepromWriteServoTrim r) = sServoTrimAngles (world r)
  /\ sServoTrimAngles (world (eepromWriteServoTrim r)) = sServoTrimAngles (world r)
  /\ sServoTrimAngles
       (world (eepromReadAndSetServoTrim
                 (mkRobot (setTrimAngles drift (world (eepromWriteServoTrim r)))
                          (sBodyHeightAngle (eepromWriteServoTrim r))
                          (sServoTrimAnglesEEPROM (eepromWriteServoTrim r)))))
     = sServoTrimAngles (world r).
Proof.
  intros He Hr Hd.
  assert (Hsaved : sServoTrimAnglesEEPROM (eepromWriteServoTrim r)
                   = sServoTrimAngles (world r)).
  { rewrite eepromWriteServoTrim_eeprom. apply block_copy_full; assumption. }
  split; [exact Hsaved|]. split.
  - rewrite eepromWriteServoTrim_world. apply printTrimAngles_table.
  - rewrite eepromReadAndSetServoTrim_world.
    rewrite printTrimAngles_table, setTrimAngles_table.
    rewrite robot_eeprom, robot_world, setTrimAngles_table.
    rewrite Hsaved. apply block_copy_full; [assumption|].
    exact Hd.
Qed.

Lemma savedRobot_eeprom : length (sServoTrimAnglesEEPROM savedRobot) = 8%nat.
Proof. reflexivity. Qed.

Lemma savedRobot_table : length (sServoTrimAngles (world savedRobot)) = 8%nat.
Proof. reflexivity. Qed.

Lemma drift_length : length [9; 9; 9; 9; 9; 9; 9; 9] = 8%nat.
Proof. reflexivity. Qed.

Lemma eepromReadAndSetServoTrim_loads_witness :
  sServoTrimAngles (world (eepromReadAndSetServoTrim savedRobot))
  = [3; -2; 0; 0; 0; 0; 0; 0].
Proof.
  exact (proj1 (eepromReadAndSetServoTrim_loads savedRobot savedRobot_eeprom
                  savedRobot_table)).
Defined.

Lemma eeprom_write_read_round_trip_witness :
  sServoTrimAnglesEEPROM (eepromWriteServoTrim savedRobot)
  = [1; 1; 1; 1; 1; 1; 1; 1].
Proof.
  exact (proj1 (eeprom_write_read_round_trip savedRobot [9; 9; 9; 9; 9; 9; 9; 9]
                  savedRobot_eeprom savedRobot_table drift_length)).
Defined.

(** ** Centering and shutting down *)

Section Shutdown.
Context `{lib : ServoEasingLib}.

Lemma setAllServos_staged fuel aFLP aBLP aBRP aFRP aFLL aBLL aBRL aFRL w :
  (8 <= length (sServoNextPositionArray w))%nat ->
  take 8 (sServoNextPositionArray
            (snd (setAllServos fuel aFLP aBLP aBRP aFRP aFLL aBLL aBRL aFRL w)))
  = [aFLP; aFLL; aBLP; aBLL; aBRP; aBRL; aFRP; aFRL]
  /\ serialOut (snd (setAllServos fuel aFLP aBLP aBRP aFRP aFLL aBLL aBRL aFRL w))
     = serialOut w
  /\ exists targets rest,
      trace (snd (setAllServos fuel aFLP aBLP aBRP aFRP aFLL aBLL aBRL aFRL w))
      = trace w ++ EvSetEaseToForAllServos targets :: rest
      /\ take 8 targets = [aFLP; aFLL; aBLP; aBLL; aBRP; aBRL; aFRP; aFRL].
Proof.
  intros Hlen. unfold setAllServos. cbv zeta.
  match goal with |- context [synchronizeMoveAllServosAndCheckInputAndWait _ ?x] =>
    set (staged := x) end.
  assert (Hbuf : take 8 (sServoNextPositionArray staged)
                 = [aFLP; aFLL; aBLP; aBLL; aBRP; aBRL; aFRP; aFRL]).
  { subst staged. destruct w as [sv buf tr sp st pe tc so]; simpl in Hlen.
    split_buffer buf Hlen. reflexivity. }
  assert (Hout : serialOut staged = serialOut w) by reflexivity.
  assert (Htr : trace staged = trace w) by reflexivity.
  destruct (synchronizeMoveAllServosAndCheckInputAndWait_frame fuel staged)
    as (F1 & _ & _ & F4).
  destruct (synchronizeMoveAllServosAndCheckInputAndWait_trace fuel staged)
    as (rest & Hrest).
  rewrite F1, F4, Hrest, Htr, Hout. split; [exact Hbuf|]. split; [reflexivity|].
  exists (sServoNextPositionArray staged), rest. split; [reflexivity|exact Hbuf].
Qed.

Lemma centerServos_world fuel r :
  world (snd (centerServos fuel r))
  = snd (setAllServos fuel 90 90 90 90 (sBodyHeightAngle r) (sBodyHeightAngle r)
           (sBodyHeightAngle r) (sBodyHeightAngle r) (world r)).
Proof. reflexivity. Qed.

Lemma centerServos_height fuel r :
  sBodyHeightAngle (snd (centerServos fuel r)) = sBodyHeightAngle r.
Proof. reflexivity. Qed.

Lemma shutdownServos_center LIFT_MAX_ANGLE fuel r :
  shutdownServos LIFT_MAX_ANGLE fuel r
  = centerServos fuel
      (mkRobot (serialPrint (STextLn "Shutdown servos") (world r))
               (to_uint8 LIFT_MAX_ANGLE) (sServoTrimAnglesEEPROM r)).
Proof. reflexivity. Qed.

Lemma robot_height (w : World) (h : Z) (e : list Z) :
  sBodyHeightAngle (mkRobot w h e) = h.
Proof. reflexivity. Qed.

(** X21: [centerServos] stages and commits 90 degrees for the four pivot
    servos and the body height angle for the four lift servos, whatever
    was staged before, and keeps the body height. *)
Theorem centerServos_stages (fuel : nat) (r : Robot) :
  (8 <= length (sServoNextPositionArray (world r)))%nat ->
  let h := sBodyHeightAngle r in
  take 8 (sServoNextPositionArray (world (snd (centerServos fuel r))))
  = [90; h; 90; h; 90; h; 90; h]
  /\ sBodyHeightAngle (snd (centerServos fuel r)) = h
  /\ exists targets rest,
      trace (world (snd (centerServos fuel r)))
      = trace (world r) ++ EvSetEaseToForAllServos targets :: rest
      /\ take 8 targets = [90; h; 90; h; 90; h; 90; h].
Proof.
  intros Hlen h. subst h.
  rewrite centerServos_world, centerServos_height.
  destruct (setAllServos_staged fuel 90 90 90 90 (sBodyHeightAngle r)
              (sBodyHeightAngle r) (sBodyHeightAngle r) (sBodyHeightAngle r)
              (world r) Hlen) as (Hbuf & _ & Htr).
  split; [exact Hbuf|]. split; [reflexivity|exact Htr].
Qed.

(** X22: [shutdownServos] reports the shutdown on the serial line, sets
    the body height to [LIFT_MAX_ANGLE] cut to a byte, whatever it was
    before, and stages and commits 90 degrees for the pivot servos and
    that angle for the lift servos. *)
Theorem shutdownServos_lowers_body (LIFT_MAX_ANGLE : Z) (fuel : nat) (r : Robot) :
  (8 <= length (sServoNextPositionArray (world r)))%nat ->
  let h := to_uint8 LIFT_MAX_ANGLE in
  sBodyHeightAngle (snd (shutdownServos LIFT_MAX_ANGLE fuel r)) = h
  /\ take 8 (sServoNextPositionArray (world (snd (shutdownServos LIFT_MAX_ANGLE fuel r))))
     = [90; h; 90; h; 90; h; 90; h]
  /\ serialOut (world (snd (shutdownServos LIFT_MAX_ANGLE fuel r)))
     = serialOut (world r) ++ [STextLn "Shutdown servos"]
  /\ exists targets rest,
      trace (world (snd (shutdownServos LIFT_MAX_ANGLE fuel r)))
      = trace (world r) ++ EvSetEaseToForAllServos targets :: rest
      /\ take 8 targets = [90; h; 90; h; 90; h; 90; h].
Proof.
  intros Hlen h. subst h.
  rewrite shutdownServos_center, centerServos_world, centerServos_height.
  rewrite robot_height, robot_world.
  destruct (setAllServos_staged fuel 90 90 90 90 (to_uint8 LIFT_MAX_ANGLE)
              (to_uint8 LIFT_MAX_ANGLE) (to_uint8 LIFT_MAX_ANGLE)
              (to_uint8 LIFT_MAX_ANGLE)
              (serialPrint (STextLn "Shutdown servos") (world r)) Hlen)
    as (Hbuf & Hout & Htr).
  split; [reflexivity|]. split; [exact Hbuf|]. split; [exact Hout|exact Htr].
Qed.
End Shutdown.

Lemma savedRobot_buffer :
  (8 <= length (sServoNextPositionArray (world savedRobot)))%nat.
Proof. simpl. lia. Qed.

Lemma centerServos_stages_witness :
  sBodyHeightAngle (snd (@centerServos specLib 2 savedRobot)) = 60.
Proof.
  exact (proj1 (proj2 (@centerServos_stages specLib 2 savedRobot savedRobot_buffer))).
Defined.

Lemma shutdownServos_lowers_body_witness :
  sBodyHeightAngle (snd (@shutdownServos specLib 120 2 savedRobot)) = 120.
Proof.
  exact (proj1 (@shutdownServos_lowers_body specLib 120 2 savedRobot savedRobot_buffer)).
Defined.
